(** * MYexplorer: the window fingerprint tracking and matching engine

    A shallow embedding of FingerprintUtils.cpp, WindowUtils.cpp/.h,
    FileUtils.cpp and of the tracking logic of MainWindow.cpp, with the
    properties of the specification stated over it.

    - wide strings ([std::wstring]) are lists of code units ([N]);
    - a window handle is a non-null pointer value ([positive]); a null
      [HWND] is [None];
    - the Win32 calls the code makes are answered by an explicit snapshot
      of the desktop ([OS]): the top-level windows in z-order with their
      attributes;
    - [std::map<std::wstring, TrackedWindow>] is a [gmap]; its key order
      (needed when the map is written out) is put back by sorting. *)

From Stdlib Require Import ZArith NArith List Ascii String Lia.
From stdpp Require Import base option list gmap sorting.

Set Default Proof Using "Type".
Local Open Scope N_scope.

(** ** Wide strings *)

Module WStr.

(** A [wchar_t] code unit and a [std::wstring]. *)
Abbreviation wchar_t := N (only parsing).
Abbreviation wstring := (list N) (only parsing).

(** The literal [L"..."]: the code units of an ASCII literal. *)
Fixpoint L (s : string) : wstring :=
  match s with
  | EmptyString => []
  | String c r => N_of_ascii c :: L r
  end.

(** [towlower] in the "C" locale (the program never calls [setlocale]):
    only the letters A..Z are mapped. *)
Definition towlower (c : wchar_t) : wchar_t :=
  if (65 <=? c) && (c <=? 90) then c + 32 else c.

(** [for (auto &c : s) c = towlower(c);] *)
Definition to_lower (s : wstring) : wstring := map towlower s.

(** [a == b] on wide strings. *)
Definition weqb (a b : wstring) : bool := bool_decide (a = b).

(** [s.compare(0, |p|, p) == 0] when [|p| <= |s|]: [p] starts [s]. *)
Fixpoint starts_with (p s : wstring) : bool :=
  match p, s with
  | [], _ => true
  | _ :: _, [] => false
  | a :: p', b :: s' => (a =? b) && starts_with p' s'
  end.

(** [hay.find(needle)]: the first position at which [needle] occurs,
    [None] for [npos]. *)
Fixpoint find (needle hay : wstring) : option nat :=
  if starts_with needle hay then Some 0%nat
  else match hay with
       | [] => None
       | _ :: t => S <$> find needle t
       end.

(** [s.rfind(c)]: the last position of the code unit [c], [None] for
    [npos]. *)
Fixpoint rfind (c : wchar_t) (s : wstring) : option nat :=
  match s with
  | [] => None
  | a :: t =>
      match rfind c t with
      | Some i => Some (S i)
      | None => if a =? c then Some 0%nat else None
      end
  end.

(** [s.substr(pos)] and [s.substr(0, n)]. *)
Definition substr_from (pos : nat) (s : wstring) : wstring := drop pos s.
Definition substr_to (n : nat) (s : wstring) : wstring := take n s.

(** Two code units that are the same letter up to case: equal, or an
    upper-case ASCII letter and its lower-case form. *)
Definition is_upper (c : wchar_t) : Prop := 65 <= c <= 90.
Definition same_letter (a b : wchar_t) : Prop :=
  a = b \/ (is_upper a /\ b = a + 32) \/ (is_upper b /\ a = b + 32).

(** Equality of two strings under case-insensitive comparison. *)
Definition eq_ignore_case (s t : wstring) : Prop := Forall2 same_letter s t.

(** [needle] occurs in [hay] as a substring. *)
Definition contains (needle hay : wstring) : Prop :=
  exists pre post, hay = pre ++ needle ++ post.

End WStr.
Import WStr.

(** ** The desktop the program queries *)

Module Win32.

Definition HWND := positive.
Definition HANDLE := positive.
Abbreviation DWORD := N (only parsing).

Record RECT := mkRECT { left : Z; top : Z; right : Z; bottom : Z }.

(** One top-level window. [w_pid] is what [GetWindowThreadProcessId]
    reports for it. *)
Record Window := mkWindow {
  w_hwnd : HWND;
  w_pid : DWORD;
  w_visible : bool;
  w_iconic : bool;
  w_title : wstring;
  w_class : wstring;
  w_rect : RECT
}.

(** A snapshot of the desktop. [os_windows] lists the top-level windows
    in the order [EnumWindows] visits them; child windows are left out,
    every handle the tracking code holds comes from [EnumWindows]. [os_GetProcessId] answers
    [GetProcessId], which FingerprintUtils.cpp applies to a window handle
    and FileUtils.cpp to a process handle; what it returns is the
    system's business, so it is left open. *)
Record OS := mkOS {
  os_windows : list Window;
  os_GetProcessId : HANDLE -> DWORD;
  os_GetTickCount64 : N
}.

Definition window_of (os : OS) (h : HWND) : option Window :=
  List.find (fun w => bool_decide (w_hwnd w = h)) (os_windows os).

Definition EnumWindows (os : OS) : list HWND := map w_hwnd (os_windows os).

Definition IsWindow (os : OS) (h : HWND) : bool :=
  bool_decide (is_Some (window_of os h)).

Definition IsWindowVisible (os : OS) (h : HWND) : bool :=
  from_option w_visible false (window_of os h).

Definition GetWindowThreadProcessId (os : OS) (h : HWND) : DWORD :=
  from_option w_pid 0 (window_of os h).

(** [GetProcessId(h)]; a null handle yields 0. *)
Definition GetProcessId (os : OS) (h : option HANDLE) : DWORD :=
  match h with
  | Some p => os_GetProcessId os p
  | None => 0
  end.

Definition zero_rect : RECT := mkRECT 0 0 0 0.

(** [GetWindowRect(h, &r)]. On a handle that is no window the call fails
    and the source leaves [r] as it was; no caller reaches that case with
    a handle it has not just checked or enumerated, and the model gives
    the zero rectangle there. *)
Definition GetWindowRect (os : OS) (h : HWND) : RECT :=
  from_option w_rect zero_rect (window_of os h).

(** [GetClassName(h, buf, 256)]: at most 255 code units are copied. *)
Definition GetClassName (os : OS) (h : HWND) : wstring :=
  take 255 (from_option w_class [] (window_of os h)).

Definition GetWindowText (os : OS) (h : HWND) : wstring :=
  from_option w_title [] (window_of os h).

Definition GetWindowTextLength (os : OS) (h : HWND) : nat :=
  length (GetWindowText os h).

End Win32.
Import Win32.

(** ** MainWindow.h: the fingerprint record *)

Record TrackedWindow := mkTrackedWindow {
  processId : DWORD;
  hwnd : HWND;
  rect : RECT;
  className : wstring;
  windowTitle : wstring;
  failCount : Z;
  launchTime : N
}.

(** ** FingerprintUtils.cpp *)

Module FingerprintUtils.

Definition GetFingerprint (os : OS) (h : HWND) : TrackedWindow :=
  {| processId := GetProcessId os (Some h);
     hwnd := h;
     rect := GetWindowRect os h;
     className := GetClassName os h;
     windowTitle :=
       (if decide (0 < GetWindowTextLength os h)%nat
        then GetWindowText os h else L "");
     failCount := 0;
     launchTime := os_GetTickCount64 os |}.

Definition CompareFingerprints (twStored twCurrent : TrackedWindow) : bool :=
  if negb (processId twStored =? processId twCurrent) then false
  else if negb (weqb (className twStored) (className twCurrent)) then false
  else if negb (left (rect twStored) =? left (rect twCurrent))%Z
          || negb (top (rect twStored) =? top (rect twCurrent))%Z
          || negb (right (rect twStored) =? right (rect twCurrent))%Z
          || negb (bottom (rect twStored) =? bottom (rect twCurrent))%Z
  then false
  else
    let storedTitle := to_lower (windowTitle twStored) in
    let currentTitle := to_lower (windowTitle twCurrent) in
    weqb storedTitle currentTitle.

Definition CompareStableAttributes (stored current : TrackedWindow) : bool :=
  (processId stored =? processId current)
  && weqb (className stored) (className current).

End FingerprintUtils.
Import FingerprintUtils.

(** ** WindowUtils.h / WindowUtils.cpp *)

Module WindowUtils.

(** [StripLnkExtension]: drop a trailing ".lnk". *)
Definition StripLnkExtension (fileLower : wstring) : wstring :=
  let lnkExt := L ".lnk" in
  if decide (length lnkExt <= length fileLower)%nat then
    if weqb (substr_from (length fileLower - length lnkExt) fileLower) lnkExt
    then substr_to (length fileLower - length lnkExt) fileLower
    else fileLower
  else fileLower.

(** [EnumWindows(cb, data)]: the callback is run on each window in turn
    until it returns FALSE; [cb h] is [Some r] when the callback stores
    [r] and stops the enumeration, [None] when it returns TRUE. *)
Fixpoint enum_until {R} (cb : HWND -> option R) (hs : list HWND) : option R :=
  match hs with
  | [] => None
  | h :: rest =>
      match cb h with
      | Some r => Some r
      | None => enum_until cb rest
      end
  end.

Definition EnumProcMain (os : OS) (processID : DWORD) (h : HWND) : option HWND :=
  let pid := GetWindowThreadProcessId os h in
  if (pid =? processID) && IsWindowVisible os h then Some h else None.

Definition GetMainWindowHandle (os : OS) (processID : DWORD) : option HWND :=
  enum_until (EnumProcMain os processID) (EnumWindows os).

Definition EnumProcFile (os : OS) (fileName : wstring) (h : HWND) : option HWND :=
  let len := GetWindowTextLength os h in
  if decide (0 < len)%nat then
    let title := GetWindowText os h in
    let titleLower := to_lower title in
    let fileLower := StripLnkExtension (to_lower fileName) in
    if negb (bool_decide (fileLower = []))
       && bool_decide (is_Some (WStr.find fileLower titleLower))
    then Some h else None
  else None.

Definition GetWindowHandleByFileName (os : OS) (fileName : wstring) : option HWND :=
  enum_until (EnumProcFile os fileName) (EnumWindows os).

End WindowUtils.
Import WindowUtils.

(** ** The stream operations FileUtils.cpp relies on *)

Module IOStream.

Definition TAB : wchar_t := 9.
Definition NEWLINE : wchar_t := 10.

(** [iswspace] on the ASCII range: space, and \t \n \v \f \r. *)
Definition iswspace (c : wchar_t) : bool :=
  (c =? 32) || ((9 <=? c) && (c <=? 13)).

Definition is_digit (c : wchar_t) : bool := (48 <=? c) && (c <=? 57).

(** The longest prefix on which [p] holds, and what follows it. *)
Fixpoint span (p : wchar_t -> bool) (s : wstring) : wstring * wstring :=
  match s with
  | [] => ([], [])
  | c :: r =>
      if p c then let '(a, b) := span p r in (c :: a, b)
      else ([], s)
  end.

Definition skipws (s : wstring) : wstring := snd (span iswspace s).

(** [is >> str]: skip white space, then take code units up to the next
    white space; fails when nothing is taken. Returns the token and the
    rest of the stream. *)
Definition read_wstring (s : wstring) : option (wstring * wstring) :=
  let '(tok, rest) := span (fun c => negb (iswspace c)) (skipws s) in
  if bool_decide (tok = []) then None else Some (tok, rest).

(** The value of a run of decimal digits. *)
Definition digits_value (ds : wstring) : N :=
  fold_left (fun acc c => 10 * acc + (c - 48)) ds 0.

(** An optional sign in front of a number: whether it is a minus, and
    what follows it. *)
Definition read_sign (s : wstring) : bool * wstring :=
  match s with
  | 43 :: r => (false, r)
  | 45 :: r => (true, r)
  | _ => (false, s)
  end.

(** [is >> n] for a 32-bit [unsigned long] in base ten: skip white space,
    take an optional sign and the digits after it; fails without a digit
    or when the digits exceed the 32-bit range; a minus sign negates
    modulo 2^32 (as [strtoul] does). *)
Definition read_DWORD (s : wstring) : option (DWORD * wstring) :=
  let '(minus, s2) := read_sign (skipws s) in
  let '(ds, rest) := span is_digit s2 in
  if bool_decide (ds = []) then None
  else
    let v := digits_value ds in
    if 2 ^ 32 <=? v then None
    else Some (if minus then (2 ^ 32 - v) mod 2 ^ 32 else v, rest).

(** [os << n] for an [unsigned long]: the decimal digits, most
    significant first. Ten digits are enough for 32 bits. *)
Fixpoint put_digits (fuel : nat) (n : N) (acc : wstring) : wstring :=
  match fuel with
  | O => acc
  | S f =>
      let acc' := (48 + n mod 10) :: acc in
      if n / 10 =? 0 then acc' else put_digits f (n / 10) acc'
  end.

Definition write_DWORD (n : DWORD) : wstring := put_digits 10 n [].

(** [while (std::getline(is, line))]: the lines of a text, in order;
    a last line without a newline is still delivered when it is not
    empty. [cur] is the current line, reversed. *)
Fixpoint getlines_from (cur : wstring) (s : wstring) : list wstring :=
  match s with
  | [] => if bool_decide (cur = []) then [] else [rev cur]
  | c :: r =>
      if c =? NEWLINE then rev cur :: getlines_from [] r
      else getlines_from (c :: cur) r
  end.

Definition getlines (s : wstring) : list wstring := getlines_from [] s.

End IOStream.
Import IOStream.

(** ** FileUtils.cpp *)

Module FileUtils.

Definition BACKSLASH : wchar_t := 92.

(** What the user sees. *)
Inductive UiEvent :=
| MessageBox (text caption : wstring).

(** The surroundings of a launch: whether the shell-open call succeeds
    (and with which process handle, possibly null), and the desktop as
    it is [t] milliseconds after that call returned. The clock advances
    only while the poll loop sleeps. *)
Record World := mkWorld {
  ShellExecuteExW : wstring -> option (option HANDLE);
  at_ms : Z -> OS
}.

Definition pollInterval : Z := 250.
Definition maxPollTime : Z := 1000.

(** The window looked up by one pass of the poll loop at time [t]. *)
Definition launched_window (w : World) (hProcess : option HANDLE) (t : Z)
  : option HWND :=
  GetMainWindowHandle (at_ms w t) (GetProcessId (at_ms w t) hProcess).

(** The poll loop of [LaunchFile], entered with [elapsed]; [fuel] bounds
    the number of times it sleeps. The result is the window found and the
    time of the pass that found it, [Some None] when the loop ends with
    nothing, and [None] when the fuel runs out first (which [poll_total]
    below excludes for the fuel [poll] gives). *)
Fixpoint poll_loop (fuel : nat) (w : World) (hProcess : option HANDLE)
    (elapsed : Z) : option (option (HWND * Z)) :=
  if decide (elapsed < maxPollTime)%Z then
    match launched_window w hProcess elapsed with
    | Some hwndLaunched => Some (Some (hwndLaunched, elapsed))
    | None =>
        match fuel with
        | O => None
        | S fuel' => poll_loop fuel' w hProcess (elapsed + pollInterval)
        end
    end
  else Some None.

(** The sleeps the loop can make from [elapsed] on. *)
Definition poll_fuel (elapsed : Z) : nat :=
  Z.to_nat ((maxPollTime - elapsed + pollInterval - 1) / pollInterval).

Definition poll (w : World) (hProcess : option HANDLE) : option (HWND * Z) :=
  default None (poll_loop (poll_fuel 0) w hProcess 0).

Definition LaunchFile (w : World) (filePath : wstring)
    (fileWindowMap : gmap wstring TrackedWindow)
  : gmap wstring TrackedWindow * list UiEvent :=
  match ShellExecuteExW w filePath with
  | Some hProcess =>
      match poll w hProcess with
      | Some (hwndLaunched, t) =>
          (<[filePath := GetFingerprint (at_ms w t) hwndLaunched]> fileWindowMap, [])
      | None => (fileWindowMap, [])
      end
  | None =>
      (fileWindowMap, [MessageBox (L "Failed to launch file.") (L "Error")])
  end.

(** The order of [std::wstring] keys in a [std::map]. *)
Fixpoint wstring_leb (a b : wstring) : bool :=
  match a, b with
  | [], _ => true
  | _ :: _, [] => false
  | x :: a', y :: b' => (x <? y) || ((x =? y) && wstring_leb a' b')
  end.

Definition key_le (p q : wstring * TrackedWindow) : Prop :=
  Is_true (wstring_leb p.1 q.1).

#[global] Instance key_le_dec p q : Decision (key_le p q) := _.

(** [for (const auto& pair : fileWindowMap)]: the entries by key. *)
Definition entries (m : gmap wstring TrackedWindow)
  : list (wstring * TrackedWindow) :=
  merge_sort key_le (map_to_list m).

(** [ofs << pair.first << L"\t" << pair.second.processId << std::endl];
    the code units are taken to be written as they are. *)
Definition record_line (pair : wstring * TrackedWindow) : wstring :=
  pair.1 ++ [TAB] ++ write_DWORD (processId pair.2) ++ [NEWLINE].

(** The text written to the tracking file; [None] when the file cannot be
    opened for writing (nothing is written). *)
Definition SaveTrackingMapping (opened : bool)
    (fileWindowMap : gmap wstring TrackedWindow) : option wstring :=
  if opened then Some (concat (map record_line (entries fileWindowMap)))
  else None.

(** [iss >> filePath >> processId] *)
Definition parse_record (line : wstring) : option (wstring * DWORD) :=
  '(filePath, rest) ← read_wstring line;
  '(processId, _) ← read_DWORD rest;
  Some (filePath, processId).

(** The window a persisted record is reconciled with. *)
Definition tracked_window (os : OS) (filePath : wstring) (processId : DWORD)
  : option HWND :=
  match GetMainWindowHandle os processId with
  | Some hwndTracked => Some hwndTracked
  | None =>
      match rfind BACKSLASH filePath with
      | Some pos =>
          let fileName := substr_from (pos + 1) filePath in
          GetWindowHandleByFileName os fileName
      | None => None
      end
  end.

(** One pass of the loop of [LoadTrackingMapping]. *)
Definition load_line (os : OS) (fileWindowMap : gmap wstring TrackedWindow)
    (line : wstring) : gmap wstring TrackedWindow :=
  match parse_record line with
  | Some (filePath, processId) =>
      match tracked_window os filePath processId with
      | Some hwndTracked =>
          <[filePath := GetFingerprint os hwndTracked]> fileWindowMap
      | None => fileWindowMap
      end
  | None => fileWindowMap
  end.

(** [file] is the text of the tracking file, [None] when it cannot be
    opened. *)
Definition LoadTrackingMapping (os : OS) (file : option wstring)
    (fileWindowMap : gmap wstring TrackedWindow)
  : gmap wstring TrackedWindow :=
  match file with
  | None => fileWindowMap
  | Some text => fold_left (load_line os) (getlines text) fileWindowMap
  end.

End FileUtils.
Import FileUtils.

(** ** MainWindow.cpp: the tracking logic of the message handlers *)

Module MainWindow.

(** Config.h *)
Definition PROJECT_FOLDER : wstring := L "C:" ++ [BACKSLASH] ++ L "tmp".

(** The calls a handler makes on the tracking engine and on the desktop,
    in the order it makes them. *)
Inductive Call :=
| CallIsWindow (h : HWND)
| CallGetFingerprint (h : HWND)
| CallCompareStableAttributes (stored current : TrackedWindow)
| CallGetWindowHandleByFileName (fileName : wstring)
| CallActivateTrackedWindow (h : HWND)
| CallLaunchFile (filePath : wstring).

(** A handler runs on [m_fileWindowMap] and leaves a log of its calls. *)
Definition Handler (A : Type) : Type :=
  gmap wstring TrackedWindow -> A * gmap wstring TrackedWindow * list Call.

Definition ret {A} (a : A) : Handler A := fun m => (a, m, []).

Definition bind {A B} (c : Handler A) (k : A -> Handler B) : Handler B :=
  fun m =>
    let '(a, m1, t1) := c m in
    let '(b, m2, t2) := k a m1 in
    (b, m2, t1 ++ t2).

Declare Scope handler_scope.
Delimit Scope handler_scope with handler.
Notation "x <- c ;; k" := (bind c (fun x => k))
  (at level 100, c at next level, right associativity) : handler_scope.
Notation "c ;;; k" := (bind c (fun _ => k))
  (at level 100, right associativity) : handler_scope.
Local Open Scope handler_scope.

Definition called {A} (c : Call) (a : A) : Handler A := fun m => (a, m, [c]).

(** [m_fileWindowMap.find(filePath)] *)
Definition map_find (filePath : wstring) : Handler (option TrackedWindow) :=
  fun m => (m !! filePath, m, []).

(** [it->second = tw] and [m_fileWindowMap[filePath] = tw] *)
Definition map_assign (filePath : wstring) (tw : TrackedWindow) : Handler unit :=
  fun m => (tt, <[filePath := tw]> m, []).

Definition doIsWindow (os : OS) (h : HWND) : Handler bool :=
  called (CallIsWindow h) (IsWindow os h).

Definition doGetFingerprint (os : OS) (h : HWND) : Handler TrackedWindow :=
  called (CallGetFingerprint h) (GetFingerprint os h).

Definition doCompareStableAttributes (stored current : TrackedWindow)
  : Handler bool :=
  called (CallCompareStableAttributes stored current)
         (CompareStableAttributes stored current).

Definition doGetWindowHandleByFileName (os : OS) (fileName : wstring)
  : Handler (option HWND) :=
  called (CallGetWindowHandleByFileName fileName)
         (GetWindowHandleByFileName os fileName).

Definition ActivateTrackedWindow (tw : TrackedWindow) : Handler unit :=
  called (CallActivateTrackedWindow (hwnd tw)) tt.

Definition doLaunchFile (w : World) (filePath : wstring) : Handler unit :=
  fun m => (tt, fst (LaunchFile w filePath m), [CallLaunchFile filePath]).

(** [it != m_fileWindowMap.end() && IsWindow(it->second.hwnd)]: the
    stored record when both hold; [IsWindow] is asked only for an entry
    that exists. *)
Definition live_entry (os : OS) (filePath : wstring)
  : Handler (option TrackedWindow) :=
  it <- map_find filePath ;;
  match it with
  | Some stored =>
      alive <- doIsWindow os (hwnd stored) ;;
      ret (if alive then Some stored else None)
  | None => ret None
  end.

(** [PROJECT_FOLDER + L"\\" + fileName] *)
Definition row_path (fileName : wstring) : wstring :=
  PROJECT_FOLDER ++ [BACKSLASH] ++ fileName.

(** WM_TIMER, one row of a list view: the window whose state is shown
    for [fileName], [None] for "Not launched". *)
Definition TimerRow (os : OS) (fileName : wstring) : Handler (option HWND) :=
  let filePath := row_path fileName in
  it <- live_entry os filePath ;;
  match it with
  | Some stored =>
      currentFp <- doGetFingerprint os (hwnd stored) ;;
      same <- doCompareStableAttributes stored currentFp ;;
      if same then ret (Some (hwnd stored))
      else
        map_assign filePath currentFp ;;;
        ret (Some (hwnd currentFp))
  | None => doGetWindowHandleByFileName os fileName
  end.

(** WM_TIMER: every row of the File Tracking list view, then every row
    of the CLI list view. *)
Fixpoint TimerRows (os : OS) (rows : list wstring) : Handler (list (option HWND)) :=
  match rows with
  | [] => ret []
  | fileName :: rest =>
      r <- TimerRow os fileName ;;
      rs <- TimerRows os rest ;;
      ret (r :: rs)
  end.

Definition OnTimer (os : OS) (fileRows cliRows : list wstring)
  : Handler (list (option HWND)) :=
  TimerRows os (fileRows ++ cliRows).

(** The "normal logic" shared by the double-click handlers, the launcher
    buttons and the CLI edit control: activate the tracked window of
    [filePath], or find one by [fileName], or launch the file. (A ".url"
    file whose URL can be read is shown in the browser panel instead and
    never reaches this logic; the store is not touched then.) The window
    activated is [it->second] as it is after the assignment. *)
Definition ActivateOrLaunch (os : OS) (w : World) (filePath fileName : wstring)
  : Handler unit :=
  it <- live_entry os filePath ;;
  match it with
  | Some stored =>
      currentFp <- doGetFingerprint os (hwnd stored) ;;
      same <- doCompareStableAttributes stored currentFp ;;
      (if negb same then map_assign filePath currentFp else ret tt) ;;;
      ActivateTrackedWindow (if same then stored else currentFp)
  | None =>
      hwndFound <- doGetWindowHandleByFileName os fileName ;;
      match hwndFound with
      | Some h =>
          fp <- doGetFingerprint os h ;;
          map_assign filePath fp ;;;
          ActivateTrackedWindow fp
      | None => doLaunchFile w filePath
      end
  end.

(** NM_DBLCLK on a list view row and Enter in the CLI edit control. *)
Definition OnActivateRow (os : OS) (w : World) (fileName : wstring)
  : Handler unit :=
  ActivateOrLaunch os w (row_path fileName) fileName.

(** WM_COMMAND of a launcher button:
    [fileName = filePath.substr(filePath.find_last_of(L'\\') + 1)]. *)
Definition OnLauncherButton (os : OS) (w : World) (filePath : wstring)
  : Handler unit :=
  let fileName :=
    match rfind BACKSLASH filePath with
    | Some pos => substr_from (pos + 1) filePath
    | None => filePath
    end in
  ActivateOrLaunch os w filePath fileName.

(** The operations on the store, and the states the program can reach
    from the empty map of start-up. *)
Inductive step : gmap wstring TrackedWindow -> gmap wstring TrackedWindow -> Prop :=
| step_load os file m :
    step m (LoadTrackingMapping os file m)
| step_launch w filePath m :
    step m (fst (LaunchFile w filePath m))
| step_timer os fileRows cliRows m :
    step m (snd (fst (OnTimer os fileRows cliRows m)))
| step_activate os w fileName m :
    step m (snd (fst (OnActivateRow os w fileName m)))
| step_button os w filePath m :
    step m (snd (fst (OnLauncherButton os w filePath m))).

Inductive reachable : gmap wstring TrackedWindow -> Prop :=
| reachable_start : reachable ∅
| reachable_step m m' : reachable m -> step m m' -> reachable m'.

End MainWindow.
Import MainWindow.

(** ** The vocabulary of the specification *)

Module Spec.

(** Two desktops with the same windows in the same order, whose titles
    differ at most in the case of their letters. *)
Definition same_titles_ignoring_case (os os' : OS) : Prop :=
  Forall2 (fun w w' => w_hwnd w = w_hwnd w'
                       /\ eq_ignore_case (w_title w) (w_title w'))
          (os_windows os) (os_windows os').

(** No visible window is owned by process [pid]. *)
Definition no_visible_window (os : OS) (pid : DWORD) : Prop :=
  forall win, win ∈ os_windows os -> w_visible win = true -> w_pid win <> pid.

(** The base file name of a path: what follows its last backslash. *)
Definition base_name (filePath : wstring) : wstring :=
  match rfind BACKSLASH filePath with
  | Some pos => substr_from (pos + 1) filePath
  | None => filePath
  end.

(** A record that [GetFingerprint] returned. *)
Definition captured (tw : TrackedWindow) : Prop := exists os h, tw = GetFingerprint os h.

(** Every entry of [m'] is an entry of [m] or a fresh capture. *)
Definition only_adds_captures (m m' : gmap wstring TrackedWindow) : Prop :=
  forall path tw, m' !! path = Some tw -> m !! path = Some tw \/ captured tw.

(** The same record with another failure counter. *)
Definition with_failCount (n : Z) (tw : TrackedWindow) : TrackedWindow :=
  {| processId := processId tw; hwnd := hwnd tw; rect := rect tw;
     className := className tw; windowTitle := windowTitle tw;
     failCount := n; launchTime := launchTime tw |}.

(** The text of one record, without its newline. *)
Definition record_text (pair : wstring * TrackedWindow) : wstring :=
  pair.1 ++ [TAB] ++ write_DWORD (processId pair.2).

(** A key the reader takes as one token: not empty, no white space. *)
Definition one_token (s : wstring) : Prop :=
  s <> [] /\ Forall (fun c => iswspace c = false) s.

(** An entry that survives the round trip on the desktop [os]. *)
Definition survives (os : OS) (pair : wstring * TrackedWindow) : Prop :=
  one_token pair.1 /\ processId pair.2 < 2 ^ 32
  /\ is_Some (GetMainWindowHandle os (processId pair.2)).

End Spec.
Import Spec.

(** ** Scenarios *)

Module Scenarios.

(** A record and a later capture of the same window after its title
    changed and it was moved. *)
Definition drift_stored : TrackedWindow :=
  {| processId := 4242; hwnd := 17%positive;
     rect := mkRECT 0 0 800 600;
     className := L "OpusApp"; windowTitle := L "Document1 - Word";
     failCount := 0; launchTime := 1000 |}.

Definition drift_current : TrackedWindow :=
  {| processId := 4242; hwnd := 17%positive;
     rect := mkRECT 40 40 840 640;
     className := L "OpusApp"; windowTitle := L "Document1.docx - Word";
     failCount := 0; launchTime := 2000 |}.

(** A Word window after the document was saved under a name and the
    window was moved: what [drift_current] was captured from. *)
Definition word_window : Window :=
  {| w_hwnd := 17%positive; w_pid := 4242; w_visible := true;
     w_iconic := false;
     w_title := L "Document1.docx - Word"; w_class := L "OpusApp";
     w_rect := mkRECT 40 40 840 640 |}.

Definition word_os : OS :=
  {| os_windows := [word_window];
     os_GetProcessId := fun _ => 4242;
     os_GetTickCount64 := 2000 |}.

(** The desktop without that window. *)
Definition bare_os : OS :=
  {| os_windows := [];
     os_GetProcessId := fun _ => 4242;
     os_GetTickCount64 := 2000 |}.

(** The desktop after the document was closed and opened again: the old
    handle is gone, the new window has another one. *)
Definition reopened_window : Window :=
  {| w_hwnd := 23%positive; w_pid := 5151; w_visible := true;
     w_iconic := false;
     w_title := L "Document1.docx - Word"; w_class := L "OpusApp";
     w_rect := mkRECT 0 0 800 600 |}.

Definition reopened_os : OS :=
  {| os_windows := [reopened_window];
     os_GetProcessId := fun _ => 5151;
     os_GetTickCount64 := 3000 |}.

Definition doc_name : wstring := L "Document1.docx".

(** The store tracking the document under its stale title. *)
Definition doc_store : gmap wstring TrackedWindow :=
  {[ row_path doc_name := drift_stored ]}.

(** A world in which nothing can be launched. *)
Definition no_launch_world : World :=
  {| ShellExecuteExW := fun _ => None; at_ms := fun _ => word_os |}.

(** A world in which the launched process shows its window [T] ms after
    the launch. *)
Definition late_world (T : Z) : World :=
  {| ShellExecuteExW := fun _ => Some (Some 99%positive);
     at_ms := fun t => if (t <? T)%Z then bare_os else word_os |}.

(** A tracked file whose name contains a space. *)
Definition spaced_path : wstring := L "C:\tmp\my file.txt".

Definition spaced_store : gmap wstring TrackedWindow :=
  {[ spaced_path := drift_stored ]}.

(** A persisted record of a process that is gone, for a file no window
    title mentions. *)
Definition notes_path : wstring := L "C:\tmp\notes.txt".
Definition notes_text : wstring := notes_path ++ [TAB] ++ L "777" ++ [NEWLINE].

End Scenarios.
Import Scenarios.

(** ** WindowUtils.cpp: the remaining lookups *)

Module WindowUtilsRest.

(** [EnumProcIsFile]: [Some tt] when it sets [found] and stops. The title
    and the name are compared as they are. *)
Definition EnumProcIsFile (os : OS) (fileName : wstring) (h : HWND) : option unit :=
  let len := GetWindowTextLength os h in
  if decide (0 < len)%nat then
    let title := GetWindowText os h in
    if bool_decide (is_Some (WStr.find fileName title)) then Some tt else None
  else None.

Definition IsFileWindowOpen (os : OS) (fileName : wstring) : bool :=
  match enum_until (EnumProcIsFile os fileName) (EnumWindows os) with
  | Some _ => true
  | None => false
  end.

(** The callbacks of [GetPowerPointWindow] and [GetWordWindow], which
    differ in the class name only: [GetClassName] must copy something, and
    what it copied must be the name. *)
Definition EnumProcClass (os : OS) (cls : wstring) (h : HWND) : option HWND :=
  let className := GetClassName os h in
  if decide (0 < length className)%nat then
    if weqb className cls then Some h else None
  else None.

Definition GetPowerPointWindow (os : OS) : option HWND :=
  enum_until (EnumProcClass os (L "PPTFrameClass")) (EnumWindows os).

Definition GetWordWindow (os : OS) : option HWND :=
  enum_until (EnumProcClass os (L "OpusApp")) (EnumWindows os).

End WindowUtilsRest.
Import WindowUtilsRest.

(** ** WindowMonitor.h / WindowMonitor.cpp *)

Module WindowMonitor.

Inductive WindowState := Normal | Minimized | Maximized | Unknown.

#[global] Instance WindowState_eq_dec : EqDecision WindowState.
Proof. solve_decision. Defined.

Record WindowInfo := mkWindowInfo {
  hwnd : HWND;
  title : wstring;
  rect : RECT;
  state : WindowState;
  processId : DWORD;
  processName : wstring;
  isFocused : bool;
  className : wstring
}.

Definition SW_SHOWMINIMIZED : Z := 2.
Definition SW_SHOWMAXIMIZED : Z := 3.
Definition MAX_PATH : nat := 260.

(** The desktop with what window monitoring asks besides:
    [GetWindowPlacement] (the [showCmd], [None] when the call fails),
    [OpenProcess] with query rights, [GetModuleFileNameEx] on the handle it
    gave, and [GetForegroundWindow]. *)
Record Shell := mkShell {
  sh_os : OS;
  sh_showCmd : HWND -> option Z;
  sh_OpenProcess : DWORD -> option HANDLE;
  sh_GetModuleFileNameEx : HANDLE -> option wstring;
  sh_GetForegroundWindow : option HWND
}.

Definition GetWindowState (sh : Shell) (h : HWND) : WindowState :=
  match sh_showCmd sh h with
  | Some showCmd =>
      if (showCmd =? SW_SHOWMINIMIZED)%Z then Minimized
      else if (showCmd =? SW_SHOWMAXIMIZED)%Z then Maximized
      else Normal
  | None => Unknown
  end.

(** The path is copied into a buffer of [MAX_PATH] code units. *)
Definition GetProcessName (sh : Shell) (pid : DWORD) : wstring :=
  match sh_OpenProcess sh pid with
  | Some hProcess =>
      match sh_GetModuleFileNameEx sh hProcess with
      | Some name => take (MAX_PATH - 1) name
      | None => []
      end
  | None => []
  end.

(** [EnumWindowsCallback]: the entry pushed for [h], [None] when the
    window is passed over. The callback always returns TRUE. *)
Definition EnumWindowsCallback (sh : Shell) (h : HWND) : option WindowInfo :=
  let os := sh_os sh in
  if negb (IsWindowVisible os h) then None
  else
    let length := GetWindowTextLength os h in
    if decide (length = 0)%nat then None
    else
      let title := GetWindowText os h in
      if bool_decide (title = []) then None
      else
        Some {| hwnd := h;
                title := title;
                rect := GetWindowRect os h;
                state := GetWindowState sh h;
                processId := GetWindowThreadProcessId os h;
                processName := GetProcessName sh (GetWindowThreadProcessId os h);
                isFocused := bool_decide (Some h = sh_GetForegroundWindow sh);
                className := GetClassName os h |}.

Definition EnumerateWindows (sh : Shell) : list WindowInfo :=
  omap (EnumWindowsCallback sh) (EnumWindows (sh_os sh)).

End WindowMonitor.

(** ** MainWindow.cpp: helpers, the CLI and the launcher buttons *)

Module MainWindowUI.

Import WindowMonitor (Shell, WindowInfo, sh_os, sh_showCmd, sh_GetForegroundWindow,
                      SW_SHOWMINIMIZED, SW_SHOWMAXIMIZED).

(** [GetStateString] *)
Definition GetStateString (sh : Shell) (h : HWND) : wstring :=
  let stateStr :=
    match sh_showCmd sh h with
    | Some showCmd =>
        if (showCmd =? SW_SHOWMINIMIZED)%Z then L "Minimized"
        else if (showCmd =? SW_SHOWMAXIMIZED)%Z then L "Maximized"
        else L "Normal"
    | None => L "Unknown"
    end in
  if bool_decide (Some h = sh_GetForegroundWindow sh)
  then stateStr ++ L " (Focused)" else stateStr.

(** One pass of the loop of [WindowListsEqual]: do the two entries
    differ in a field the function looks at. *)
Definition entries_differ (a b : WindowInfo) : bool :=
  negb (weqb (WindowMonitor.title a) (WindowMonitor.title b))
  || negb (weqb (WindowMonitor.processName a) (WindowMonitor.processName b))
  || negb (bool_decide (WindowMonitor.state a = WindowMonitor.state b))
  || negb (weqb (WindowMonitor.className a) (WindowMonitor.className b))
  || negb (left (WindowMonitor.rect a) =? left (WindowMonitor.rect b))%Z
  || negb (top (WindowMonitor.rect a) =? top (WindowMonitor.rect b))%Z
  || negb (right (WindowMonitor.rect a) =? right (WindowMonitor.rect b))%Z
  || negb (bottom (WindowMonitor.rect a) =? bottom (WindowMonitor.rect b))%Z.

(** The loop of [WindowListsEqual] over two lists of the same size. *)
Fixpoint lists_agree (a b : list WindowInfo) : bool :=
  match a, b with
  | x :: a', y :: b' => if entries_differ x y then false else lists_agree a' b'
  | _, _ => true
  end.

Definition WindowListsEqual (a b : list WindowInfo) : bool :=
  if negb (length a =? length b)%nat then false else lists_agree a b.

(** A blank of the set [L" \t"]. *)
Definition is_blank (c : wchar_t) : bool := (c =? 32) || (c =? 9).

(** [s.find_first_not_of(L" \t")] *)
Fixpoint find_first_not_of_blank (s : wstring) : option nat :=
  match s with
  | [] => None
  | c :: r => if is_blank c then S <$> find_first_not_of_blank r else Some 0%nat
  end.

(** [s.find_last_not_of(L" \t")] *)
Fixpoint find_last_not_of_blank (s : wstring) : option nat :=
  match s with
  | [] => None
  | c :: r =>
      match find_last_not_of_blank r with
      | Some i => Some (S i)
      | None => if is_blank c then None else Some 0%nat
      end
  end.

(** [s.substr(pos, n)] for [pos <= s.size()] *)
Definition substr (pos n : nat) (s : wstring) : wstring := take n (drop pos s).

(** The text of the CLI edit control without the blanks around it; empty
    when there is nothing else. *)
Definition trim_input (input : wstring) : wstring :=
  match find_first_not_of_blank input, find_last_not_of_blank input with
  | Some start, Some end_ => substr start (end_ - start + 1) input
  | _, _ => []
  end.

(** The text of a list view row as the double-click handlers trim it: a
    text of blanks only is left as it is. *)
Definition trim_row (fileName : wstring) : wstring :=
  match find_first_not_of_blank fileName, find_last_not_of_blank fileName with
  | Some start, Some end_ => substr start (end_ - start + 1) fileName
  | _, _ => fileName
  end.

(** [hay.rfind(needle)]: the last position at which [needle] occurs. *)
Fixpoint rfind_str (needle hay : wstring) : option nat :=
  match hay with
  | [] => if starts_with needle [] then Some 0%nat else None
  | _ :: t =>
      match rfind_str needle t with
      | Some i => Some (S i)
      | None => if starts_with needle hay then Some 0%nat else None
      end
  end.

(** [lowerPath.size() >= 4 && lowerPath.rfind(L".url") == lowerPath.size() - 4]
    on the lower-cased path. *)
Definition is_url_path (filePath : wstring) : bool :=
  let lowerPath := to_lower filePath in
  bool_decide (4 <= length lowerPath)%nat
  && bool_decide (rfind_str (L ".url") lowerPath = Some (length lowerPath - 4)%nat).

(** The loop over the lines of a ".url" file: the rest of the first line
    that starts with "URL=", empty when there is none. *)
Fixpoint read_url (lines : list wstring) : wstring :=
  match lines with
  | [] => []
  | line :: rest =>
      if bool_decide (WStr.find (L "URL=") line = Some 0%nat)
      then substr_from 4 line
      else read_url rest
  end.

(** What a handler did with a row or an input. *)
Inductive RowAction :=
| NothingToDo
| ShowedError (e : UiEvent)
| ShowedBrowser (url : wstring)
| NormalLogic.

(** The part shared by the handlers once the file name is known: a ".url"
    file is read and shown in the browser panel; everything else, and a
    ".url" file without a URL, goes to the normal logic. [open_file] gives
    the text of a file, [None] when it cannot be opened; [searchName] is
    what the title search is given. *)
Definition url_or_normal (open_file : wstring -> option wstring) (os : OS)
    (w : World) (filePath searchName : wstring) : Handler RowAction :=
  let normal :=
    bind (ActivateOrLaunch os w filePath searchName) (fun _ => ret NormalLogic) in
  if is_url_path filePath then
    match open_file filePath with
    | None =>
        ret (ShowedError (MessageBox (L "Failed to open .url file.") (L "Error")))
    | Some text =>
        let url := read_url (getlines text) in
        if negb (bool_decide (url = [])) then ret (ShowedBrowser url)
        else normal
    end
  else normal.

(** NM_DBLCLK on a row of the File Tracking or of the CLI list view. *)
Definition OnRowDoubleClick (open_file : wstring -> option wstring) (os : OS)
    (w : World) (rowText : wstring) : Handler RowAction :=
  if bool_decide (rowText = []) then ret NothingToDo
  else
    let fileName := trim_row rowText in
    url_or_normal open_file os w (row_path fileName) fileName.


(** WM_COMMAND of a launcher button, with the ".url" branch. *)
Definition OnLauncherCommand (open_file : wstring -> option wstring) (os : OS)
    (w : World) (filePath : wstring) : Handler RowAction :=
  let fileName :=
    match rfind BACKSLASH filePath with
    | Some pos => substr_from (pos + 1) filePath
    | None => filePath
    end in
  url_or_normal open_file os w filePath fileName.

(** VK_TAB: how many leading code units of [a] and [b] agree up to case
    (the [while] loop over [j]). *)
Fixpoint common_len (a b : wstring) : nat :=
  match a, b with
  | x :: a', y :: b' =>
      if towlower x =? towlower y then S (common_len a' b') else 0%nat
  | _, _ => 0%nat
  end.

(** The common prefix of the rows, starting from the first row and cut
    down by each further one. *)
Definition common_prefix (first : wstring) (others : list wstring) : wstring :=
  fold_left (fun commonPrefix currentItem =>
               substr 0 (common_len commonPrefix currentItem) commonPrefix)
            others first.


(** [FilterCLIListView]: the rows shown for [filter], out of the regular
    files of the project folder in the order the directory gives them. *)
Definition FilterCLIListView (files : list wstring) (filter : wstring)
  : list wstring :=
  List.filter
    (fun fileName =>
       let fileNameLower := to_lower fileName in
       let filterLower := to_lower filter in
       bool_decide (filterLower = [])
       || bool_decide (WStr.find filterLower fileNameLower = Some 0%nat))
    files.


(** WM_TIMER, the "Associated Files" column of one monitored window: does
    the row [fileName] belong to the window titled [winTitleLower]. *)
Definition row_matches_title (winTitleLower fileName : wstring) : bool :=
  let fileNameLower := StripLnkExtension (to_lower fileName) in
  negb (bool_decide (fileNameLower = []))
  && bool_decide (is_Some (WStr.find fileNameLower winTitleLower)).

(** The loop over the rows of the File Tracking list view building
    [associatedFiles]. *)
Definition associated_files (rows : list wstring) (title : wstring) : wstring :=
  let winTitleLower := to_lower title in
  fold_left
    (fun associatedFiles fileName =>
       if row_matches_title winTitleLower fileName then
         (if negb (bool_decide (associatedFiles = []))
          then associatedFiles ++ L ", " else associatedFiles) ++ fileName
       else associatedFiles)
    rows [].

(** WM_TIMER, the state column of a row of the Window Monitoring list
    view. *)
Definition monitor_state_string (sh : Shell) (win : WindowInfo) : wstring :=
  let stateStr :=
    match WindowMonitor.state win with
    | WindowMonitor.Normal => L "Normal"
    | WindowMonitor.Minimized => L "Minimized"
    | WindowMonitor.Maximized => L "Maximized"
    | WindowMonitor.Unknown => L "Unknown"
    end in
  if bool_decide (Some (WindowMonitor.hwnd win) = sh_GetForegroundWindow sh)
  then stateStr ++ L " (Focused)" else stateStr.

(** WM_TIMER: [m_prevWindowList] after the window list was taken. *)
Definition update_prevWindowList (windows m_prevWindowList : list WindowInfo)
  : list WindowInfo :=
  if negb (WindowListsEqual windows m_prevWindowList) then windows
  else m_prevWindowList.

(** Config.h *)
Definition MAX_LAUNCHER_BUTTONS : Z := 5.
Definition ID_LAUNCHER_BUTTON_BASE : Z := 3000.
Definition BUTTON_ROW_Y : Z := 850.
Definition BUTTON_X_START : Z := 10.
Definition BUTTON_WIDTH : Z := 120.
Definition BUTTON_HEIGHT : Z := 30.
Definition BUTTON_X_GAP : Z := 10.

(** The arguments of one [CreateWindowEx] for a launcher button. *)
Record ButtonSpec := mkButtonSpec {
  buttonLabel : wstring;
  xPos : Z;
  yPos : Z;
  nWidth : Z;
  nHeight : Z;
  ctrlId : Z
}.

(** [m_fileButtons], [m_launcherButtonMap] and the buttons asked for, in
    the order they were asked for. *)
Record Launchers := mkLaunchers {
  m_fileButtons : gmap wstring HWND;
  m_launcherButtonMap : gmap Z wstring;
  requested : list ButtonSpec
}.

(** [filePath.find_last_of(L"\\")] and the label cut after it. *)
Definition button_label (filePath : wstring) : wstring :=
  match rfind BACKSLASH filePath with
  | Some pos => substr_from (pos + 1) filePath
  | None => filePath
  end.

(** The loop of [RefreshLauncherButtons] over the entries of
    [m_launcherMap] that are left, with [buttonIndex] buttons asked for so
    far. [CreateWindowEx] answers with a handle or fails. *)
Fixpoint refresh_loop (CreateWindowEx : ButtonSpec -> option HWND)
    (entries : list (wstring * bool)) (buttonIndex : Z) (acc : Launchers)
  : Launchers :=
  match entries with
  | [] => acc
  | (filePath, checked) :: rest =>
      if checked then
        if (MAX_LAUNCHER_BUTTONS <=? buttonIndex)%Z then acc
        else
          let spec :=
            {| buttonLabel := button_label filePath;
               xPos := BUTTON_X_START + buttonIndex * (BUTTON_WIDTH + BUTTON_X_GAP);
               yPos := BUTTON_ROW_Y;
               nWidth := BUTTON_WIDTH;
               nHeight := BUTTON_HEIGHT;
               ctrlId := ID_LAUNCHER_BUTTON_BASE + buttonIndex |} in
          let acc' :=
            match CreateWindowEx spec with
            | Some hButton =>
                {| m_fileButtons := <[filePath := hButton]> (m_fileButtons acc);
                   m_launcherButtonMap :=
                     <[ctrlId spec := filePath]> (m_launcherButtonMap acc);
                   requested := requested acc ++ [spec] |}
            | None =>
                {| m_fileButtons := m_fileButtons acc;
                   m_launcherButtonMap := m_launcherButtonMap acc;
                   requested := requested acc ++ [spec] |}
            end in
          refresh_loop CreateWindowEx rest (buttonIndex + 1) acc'
      else refresh_loop CreateWindowEx rest buttonIndex acc
  end.

(** The entries of [m_launcherMap] in the order of their keys. *)
Definition launcher_entries (m_launcherMap : gmap wstring bool)
  : list (wstring * bool) :=
  merge_sort (fun p q => Is_true (wstring_leb p.1 q.1)) (map_to_list m_launcherMap).

(** [RefreshLauncherButtons]: both maps are cleared and filled again. *)
Definition RefreshLauncherButtons (CreateWindowEx : ButtonSpec -> option HWND)
    (m_launcherMap : gmap wstring bool) : Launchers :=
  refresh_loop CreateWindowEx (launcher_entries m_launcherMap) 0
    {| m_fileButtons := ∅; m_launcherButtonMap := ∅; requested := [] |}.

(** The test of WM_COMMAND for a launcher button id. *)
Definition is_launcher_command (wmId : Z) : bool :=
  (ID_LAUNCHER_BUTTON_BASE <=? wmId)%Z
  && (wmId <? ID_LAUNCHER_BUTTON_BASE + MAX_LAUNCHER_BUTTONS)%Z.

(** WM_COMMAND: the file a command id stands for when the id is a launcher
    button's and the button map knows it. *)
Definition launcher_target (ls : Launchers) (wmId : Z) : option wstring :=
  if is_launcher_command wmId then m_launcherButtonMap ls !! wmId else None.

(** WM_COMMAND as far as the launcher buttons go: [None] when the id is
    none of theirs. *)
Definition OnCommand (open_file : wstring -> option wstring) (os : OS)
    (w : World) (ls : Launchers) (wmId : Z) : Handler (option RowAction) :=
  match launcher_target ls wmId with
  | Some filePath =>
      bind (OnLauncherCommand open_file os w filePath) (fun r => ret (Some r))
  | None => ret None
  end.

(** LVN_ITEMCHANGED on the check box of the row [fileName]: the new
    [m_launcherMap] and the buttons made for it. *)
Definition OnItemChanged (CreateWindowEx : ButtonSpec -> option HWND)
    (m_launcherMap : gmap wstring bool) (fileName : wstring) (checked : bool)
  : gmap wstring bool * Launchers :=
  let filePath := row_path fileName in
  let m_launcherMap' := <[filePath := checked]> m_launcherMap in
  (m_launcherMap', RefreshLauncherButtons CreateWindowEx m_launcherMap').

End MainWindowUI.
Import MainWindowUI.

(** ** More vocabulary *)

Module Spec2.

(** The window [h] is visible and owned by process [pid]. *)
Definition owned_and_visible (os : OS) (pid : DWORD) (h : HWND) : Prop :=
  GetWindowThreadProcessId os h = pid /\ IsWindowVisible os h = true.

(** The record a line of the tracking file stores under [path] on the
    desktop [os], if it stores one there. *)
Definition line_value (os : OS) (path line : wstring) : option TrackedWindow :=
  match parse_record line with
  | Some (filePath, pid) =>
      if decide (filePath = path)
      then GetFingerprint os <$> tracked_window os filePath pid
      else None
  | None => None
  end.

(** A later value, when there is one, replaces an earlier one. *)
Definition or_else {A} (later earlier : option A) : option A :=
  match later with
  | Some x => Some x
  | None => earlier
  end.

(** The record the last such line stores. *)
Definition last_value (os : OS) (path : wstring) (lines : list wstring)
  : option TrackedWindow :=
  fold_left (fun acc line => or_else (line_value os path line) acc) lines None.


(** The same shell with another foreground window. *)
Definition with_foreground (sh : WindowMonitor.Shell) (fg : option HWND)
  : WindowMonitor.Shell :=
  WindowMonitor.mkShell (WindowMonitor.sh_os sh) (WindowMonitor.sh_showCmd sh)
    (WindowMonitor.sh_OpenProcess sh) (WindowMonitor.sh_GetModuleFileNameEx sh) fg.

(** The handle is a visible window with a title. *)
Definition visible_and_titled (os : OS) (h : HWND) : bool :=
  IsWindowVisible os h && negb (bool_decide (GetWindowText os h = [])).

(** Names written one after the other with ", " between them. *)
Fixpoint join_comma (names : list wstring) : wstring :=
  match names with
  | [] => []
  | [name] => name
  | name :: rest => name ++ L ", " ++ join_comma rest
  end.

(** The launcher button number [buttonIndex], made for [filePath]. *)
Definition launcher_button (filePath : wstring) (buttonIndex : Z) : ButtonSpec :=
  {| buttonLabel := button_label filePath;
     xPos := BUTTON_X_START + buttonIndex * (BUTTON_WIDTH + BUTTON_X_GAP);
     yPos := BUTTON_ROW_Y;
     nWidth := BUTTON_WIDTH;
     nHeight := BUTTON_HEIGHT;
     ctrlId := ID_LAUNCHER_BUTTON_BASE + buttonIndex |}.

(** The checked paths among the entries, in their order. *)
Definition checked_paths (entries : list (wstring * bool)) : list wstring :=
  fst <$> List.filter snd entries.

End Spec2.
Import Spec2.

(** ** More scenarios *)

Module Scenarios2.


(** A row of the list view naming an internet shortcut of the project
    folder, the text of that file, and the files that can be opened. *)
Definition site_row : wstring := L " Site.URL ".

Definition site_text : wstring :=
  L "[InternetShortcut]" ++ [NEWLINE] ++ L "URL=https://example.org/"
  ++ [NEWLINE].

Definition site_files (path : wstring) : option wstring :=
  if decide (path = row_path (L "Site.URL")) then Some site_text else None.

Definition no_files (path : wstring) : option wstring := None.


End Scenarios2.
Import Scenarios2.

(** * Properties *)

(** ** Wide strings *)

Section wide_strings.

Lemma towlower_same_letter a b : towlower a = towlower b <-> same_letter a b.
Proof.
  unfold towlower, same_letter, is_upper.
  destruct (65 <=? a) eqn:Ha1; destruct (a <=? 90) eqn:Ha2;
    destruct (65 <=? b) eqn:Hb1; destruct (b <=? 90) eqn:Hb2; simpl;
    rewrite ?N.leb_le, ?N.leb_gt in *; lia.
Qed.

Lemma to_lower_eq_ignore_case s t :
  to_lower s = to_lower t <-> eq_ignore_case s t.
Proof.
  unfold to_lower, eq_ignore_case. revert t.
  induction s as [|a s IH]; intros [|b t]; simpl; split; intros H;
    try discriminate; try constructor; try (inversion H; fail).
  - apply towlower_same_letter. congruence.
  - apply IH. congruence.
  - inversion H as [|? ? ? ? Hab Hst]; subst.
    f_equal; [by apply towlower_same_letter | by apply IH].
Qed.

Lemma eq_ignore_case_refl s : eq_ignore_case s s.
Proof. apply to_lower_eq_ignore_case. reflexivity. Qed.

Lemma weqb_true a b : weqb a b = true <-> a = b.
Proof. unfold weqb. apply bool_decide_eq_true. Qed.

Lemma starts_with_spec p s : starts_with p s = true <-> exists r, s = p ++ r.
Proof.
  revert s. induction p as [|a p IH]; intros s; simpl.
  - split; eauto.
  - destruct s as [|b s].
    + split; [discriminate | intros [r Hr]; discriminate].
    + rewrite andb_true_iff, N.eqb_eq, IH. split.
      * intros [-> [r ->]]. eauto.
      * intros [r Hr]. injection Hr as -> ->. eauto.
Qed.

Lemma find_contains needle hay :
  is_Some (WStr.find needle hay) <-> contains needle hay.
Proof.
  unfold contains. induction hay as [|c hay IH]; simpl.
  - destruct (starts_with needle []) eqn:Hs.
    + apply starts_with_spec in Hs as [r Hr]. split; [|eauto].
      intros _. exists [], r. done.
    + split; [intros [? ?]; discriminate |].
      intros (pre & post & Heq).
      symmetry in Heq. apply app_eq_nil in Heq as [-> Heq].
      apply app_eq_nil in Heq as [-> ->].
      discriminate.
  - destruct (starts_with needle (c :: hay)) eqn:Hs.
    + apply starts_with_spec in Hs as [r Hr]. split; [|eauto].
      intros _. exists [], r. done.
    + rewrite fmap_is_Some, IH. split.
      * intros (pre & post & ->). exists (c :: pre), post. done.
      * intros (pre & post & Heq). destruct pre as [|c' pre].
        -- simpl in Heq. assert (starts_with needle (c :: hay) = true) as Hc
             by (apply starts_with_spec; eauto).
           congruence.
        -- injection Heq as -> ->. eauto.
Qed.

End wide_strings.

(** ** FingerprintMatcher *)

Section fingerprint_matcher.

(** A comparison that already failed on one field. *)
Ltac field_differs :=
  split; [discriminate | intros (? & ? & ? & ? & ? & ? & ?); congruence].

(** C4. [CompareFingerprints] answers true exactly when the process ids
    are equal, the class names are equal, the four edges of the
    rectangles are pairwise equal, and the titles are equal up to the
    case of their letters. *)
Theorem CompareFingerprints_iff (stored current : TrackedWindow) :
  CompareFingerprints stored current = true <->
    processId stored = processId current
    /\ className stored = className current
    /\ left (rect stored) = left (rect current)
    /\ top (rect stored) = top (rect current)
    /\ right (rect stored) = right (rect current)
    /\ bottom (rect stored) = bottom (rect current)
    /\ eq_ignore_case (windowTitle stored) (windowTitle current).
Proof.
  unfold CompareFingerprints.
  rewrite <- to_lower_eq_ignore_case.
  destruct (N.eqb_spec (processId stored) (processId current)); simpl;
    [|field_differs].
  destruct (weqb (className stored) (className current)) eqn:Hc; simpl.
  2: { split; [discriminate|]. intros (_ & Hcls & _).
       apply weqb_true in Hcls. congruence. }
  apply weqb_true in Hc.
  destruct (Z.eqb_spec (left (rect stored)) (left (rect current))); simpl;
    [|field_differs].
  destruct (Z.eqb_spec (top (rect stored)) (top (rect current))); simpl;
    [|field_differs].
  destruct (Z.eqb_spec (right (rect stored)) (right (rect current))); simpl;
    [|field_differs].
  destruct (Z.eqb_spec (bottom (rect stored)) (bottom (rect current))); simpl;
    [|field_differs].
  rewrite weqb_true. tauto.
Qed.

Lemma CompareStableAttributes_iff (stored current : TrackedWindow) :
  CompareStableAttributes stored current = true <->
    processId stored = processId current
    /\ className stored = className current.
Proof.
  unfold CompareStableAttributes.
  by rewrite andb_true_iff, N.eqb_eq, weqb_true.
Qed.

Lemma CompareStableAttributes_refl (f : TrackedWindow) :
  CompareStableAttributes f f = true.
Proof. by apply CompareStableAttributes_iff. Qed.

(** C5. Strict equality implies stable-identity equality, and not the
    other way round: a pair with equal process id and class name whose
    title or rectangle differ passes [CompareStableAttributes] and fails
    [CompareFingerprints]. *)
Theorem CompareFingerprints_stronger :
  (forall stored current,
      CompareFingerprints stored current = true ->
      CompareStableAttributes stored current = true)
  /\ exists stored current,
      processId stored = processId current
      /\ className stored = className current
      /\ (windowTitle stored <> windowTitle current
          \/ rect stored <> rect current)
      /\ CompareStableAttributes stored current = true
      /\ CompareFingerprints stored current = false.
Proof.
  split.
  - intros stored current H. unfold CompareFingerprints in H.
    apply CompareStableAttributes_iff.
    destruct (N.eqb_spec (processId stored) (processId current));
      simpl in H; [|discriminate].
    destruct (weqb (className stored) (className current)) eqn:Hc;
      simpl in H; [|discriminate].
    by apply weqb_true in Hc.
  - exists drift_stored, drift_current.
    repeat split; try reflexivity.
    left. discriminate.
Qed.

End fingerprint_matcher.

(** ** Window lookup *)

Section window_lookup.

Lemma enum_until_Some {R} (cb : HWND -> option R) hs r :
  enum_until cb hs = Some r <->
    exists before h after,
      hs = before ++ h :: after /\ cb h = Some r
      /\ forall h', h' ∈ before -> cb h' = None.
Proof.
  induction hs as [|h0 hs IH]; simpl.
  - split; [discriminate|]. intros ([|? ?] & ? & ? & ? & _); discriminate.
  - destruct (cb h0) as [r0|] eqn:Hcb.
    + split.
      * intros [= ->]. exists [], h0, hs. split_and!; [done..|].
        intros h' Hin. by apply elem_of_nil in Hin.
      * intros (before & h & after & Heq & Hh & Hbefore).
        destruct before as [|b before]; simplify_eq/=; [congruence|].
        rewrite Hbefore in Hcb by apply list_elem_of_here. discriminate.
    + rewrite IH. split.
      * intros (before & h & after & -> & Hh & Hbefore).
        exists (h0 :: before), h, after. split_and!; [done..|].
        intros h' [->|Hin]%elem_of_cons; auto.
      * intros (before & h & after & Heq & Hh & Hbefore).
        destruct before as [|b before]; simplify_eq/=.
        exists before, h, after. split_and!; [done..|].
        intros h' Hin. apply Hbefore. by apply list_elem_of_further.
Qed.

Lemma enum_until_None {R} (cb : HWND -> option R) hs :
  enum_until cb hs = None <-> forall h, h ∈ hs -> cb h = None.
Proof.
  induction hs as [|h0 hs IH]; simpl.
  - split; [|done]. intros _ h Hin. by apply elem_of_nil in Hin.
  - destruct (cb h0) eqn:Hcb.
    + split; [discriminate|]. intros H.
      rewrite H in Hcb by apply list_elem_of_here. discriminate.
    + rewrite IH. split.
      * intros H h [->|Hin]%elem_of_cons; auto.
      * intros H h Hin. apply H. by apply list_elem_of_further.
Qed.

Lemma enum_until_ext {R} (cb cb' : HWND -> option R) hs :
  (forall h, h ∈ hs -> cb h = cb' h) -> enum_until cb hs = enum_until cb' hs.
Proof.
  induction hs as [|h0 hs IH]; simpl; intros H; [done|].
  rewrite <- (H h0) by apply list_elem_of_here.
  destruct (cb h0); [done|]. apply IH.
  intros h Hin. apply H. by apply list_elem_of_further.
Qed.

Lemma window_of_hwnd os h w : window_of os h = Some w -> w_hwnd w = h.
Proof.
  unfold window_of. intros H. apply find_some in H as [_ H].
  by apply bool_decide_eq_true in H.
Qed.

Lemma IsWindow_enumerated os h : IsWindow os h = true <-> h ∈ EnumWindows os.
Proof.
  unfold IsWindow, EnumWindows, window_of.
  rewrite bool_decide_eq_true.
  induction (os_windows os) as [|w ws IH]; simpl.
  - split; [intros [? ?]; discriminate | intros H; by apply elem_of_nil in H].
  - rewrite elem_of_cons. case_bool_decide as Hw.
    + split; [intros _; by left | eauto].
    + rewrite IH. split; [by right | intros [?|?]; congruence].
Qed.

Lemma StripLnkExtension_lnk base : StripLnkExtension (base ++ L ".lnk") = base.
Proof.
  unfold StripLnkExtension, substr_from, substr_to.
  rewrite length_app. change (length (L ".lnk")) with 4%nat.
  rewrite decide_True by lia.
  replace (length base + 4 - 4)%nat with (length base) by lia.
  rewrite drop_app_length, take_app_length.
  unfold weqb. by rewrite bool_decide_eq_true_2.
Qed.

Lemma StripLnkExtension_other s :
  (forall base, s <> base ++ L ".lnk") -> StripLnkExtension s = s.
Proof.
  intros Hno. unfold StripLnkExtension, substr_from, substr_to.
  case_decide; [|done].
  destruct (weqb _ _) eqn:Heq; [|done].
  apply weqb_true in Heq. exfalso.
  apply (Hno (take (length s - length (L ".lnk")) s)).
  rewrite <- (take_drop (length s - length (L ".lnk")) s) at 1.
  f_equal. exact Heq.
Qed.

Lemma EnumProcFile_Some os fileName h r :
  EnumProcFile os fileName h = Some r <->
    r = h
    /\ StripLnkExtension (to_lower fileName) <> []
    /\ contains (StripLnkExtension (to_lower fileName))
                (to_lower (GetWindowText os h)).
Proof.
  unfold EnumProcFile, GetWindowTextLength.
  set (key := StripLnkExtension (to_lower fileName)).
  rewrite <- find_contains.
  case_decide as Hlen.
  - destruct (decide (key = [])) as [Hk|Hk].
    + rewrite bool_decide_eq_true_2 by done. simpl.
      split; [discriminate | intros (_ & ? & _); done].
    + rewrite bool_decide_eq_false_2 by done. simpl.
      case_bool_decide; split; try discriminate.
      * intros [= <-]. done.
      * by intros (-> & _).
      * intros (_ & _ & ?). done.
  - split; [discriminate|]. intros (_ & Hk & Hc). exfalso.
    assert (GetWindowText os h = []) as Ht
      by (destruct (GetWindowText os h); simpl in *; [done | lia]).
    rewrite Ht in Hc. apply find_contains in Hc as (pre & post & Hc).
    symmetry in Hc. apply app_eq_nil in Hc as [_ Hc].
    apply app_eq_nil in Hc as [Hc _]. done.
Qed.

Lemma EnumProcFile_None os fileName h :
  EnumProcFile os fileName h = None <->
    StripLnkExtension (to_lower fileName) = []
    \/ ~ contains (StripLnkExtension (to_lower fileName))
                  (to_lower (GetWindowText os h)).
Proof.
  destruct (EnumProcFile os fileName h) as [r|] eqn:He.
  - apply EnumProcFile_Some in He as (_ & Hk & Hc).
    split; [discriminate | tauto].
  - split; [intros _ | done].
    destruct (decide (StripLnkExtension (to_lower fileName) = [])) as [|Hk];
      [by left | right].
    intros Hc. assert (EnumProcFile os fileName h = Some h) as He'
      by (by apply EnumProcFile_Some).
    congruence.
Qed.

Lemma GetWindowHandleByFileName_enumerated os fileName h :
  GetWindowHandleByFileName os fileName = Some h -> IsWindow os h = true.
Proof.
  unfold GetWindowHandleByFileName. intros H.
  apply enum_until_Some in H as (before & h0 & after & Heq & Hcb & _).
  apply EnumProcFile_Some in Hcb as (-> & _).
  apply IsWindow_enumerated. rewrite Heq.
  apply elem_of_app. right. apply list_elem_of_here.
Qed.

Lemma GetMainWindowHandle_enumerated os pid h :
  GetMainWindowHandle os pid = Some h -> IsWindow os h = true.
Proof.
  unfold GetMainWindowHandle. intros H.
  apply enum_until_Some in H as (before & h0 & after & Heq & Hcb & _).
  unfold EnumProcMain in Hcb.
  destruct (_ && _); simplify_eq.
  apply IsWindow_enumerated. rewrite Heq.
  apply elem_of_app. right. apply list_elem_of_here.
Qed.

End window_lookup.

(** ** Title-substring search *)

Section title_search.

Lemma same_titles_EnumWindows os os' :
  same_titles_ignoring_case os os' -> EnumWindows os = EnumWindows os'.
Proof.
  unfold same_titles_ignoring_case, EnumWindows.
  induction 1 as [|w w' ws ws' [Hh _] _ IH]; simpl; congruence.
Qed.

Lemma same_titles_GetWindowText os os' h :
  same_titles_ignoring_case os os' ->
  eq_ignore_case (GetWindowText os h) (GetWindowText os' h).
Proof.
  unfold same_titles_ignoring_case, GetWindowText, window_of.
  induction 1 as [|w w' ws ws' [Hh Ht] _ IH]; simpl.
  - constructor.
  - rewrite <- Hh. by case_bool_decide.
Qed.

Lemma same_titles_EnumProcFile os os' fileName h :
  same_titles_ignoring_case os os' ->
  EnumProcFile os' fileName h = EnumProcFile os fileName h.
Proof.
  intros Hos. unfold EnumProcFile, GetWindowTextLength.
  pose proof (same_titles_GetWindowText os os' h Hos) as Ht.
  rewrite (Forall2_length _ _ _ Ht).
  apply to_lower_eq_ignore_case in Ht. by rewrite Ht.
Qed.

(** C6. [GetWindowHandleByFileName] lower-cases the file name and strips
    a trailing ".lnk" from it; with [key] the result, an empty [key]
    finds no window, and otherwise the window returned is the first one
    enumerated whose lower-cased title contains [key] ([None] exactly
    when no enumerated window does). The answer does not depend on the
    case of the letters of the file name nor of the titles. *)
Theorem GetWindowHandleByFileName_spec (os : OS) (fileName : wstring) :
  let key := StripLnkExtension (to_lower fileName) in
  let matches h := contains key (to_lower (GetWindowText os h)) in
  ((forall base, to_lower fileName = base ++ L ".lnk" -> key = base)
   /\ ((forall base, to_lower fileName <> base ++ L ".lnk") ->
       key = to_lower fileName))
  /\ (key = [] -> GetWindowHandleByFileName os fileName = None)
  /\ (key <> [] ->
      (forall h,
          GetWindowHandleByFileName os fileName = Some h <->
            exists before after,
              EnumWindows os = before ++ h :: after
              /\ matches h
              /\ forall h', h' ∈ before -> ~ matches h')
      /\ (GetWindowHandleByFileName os fileName = None <->
            forall h, h ∈ EnumWindows os -> ~ matches h))
  /\ (forall fileName',
         eq_ignore_case fileName fileName' ->
         GetWindowHandleByFileName os fileName'
         = GetWindowHandleByFileName os fileName)
  /\ (forall os',
         same_titles_ignoring_case os os' ->
         GetWindowHandleByFileName os' fileName
         = GetWindowHandleByFileName os fileName).
Proof.
  intros key matches. split_and!.
  - intros base Hb. unfold key. rewrite Hb. apply StripLnkExtension_lnk.
  - intros Hno. by apply StripLnkExtension_other.
  - intros Hk. apply enum_until_None. intros h _.
    apply EnumProcFile_None. by left.
  - intros Hk. split.
    + intros h. unfold GetWindowHandleByFileName.
      rewrite enum_until_Some. split.
      * intros (before & h0 & after & Heq & Hcb & Hbefore).
        apply EnumProcFile_Some in Hcb as (-> & _ & Hm).
        exists before, after. split_and!; [done..|].
        intros h' Hin Hm'. apply Hbefore in Hin.
        apply EnumProcFile_None in Hin as [?|?]; done.
      * intros (before & after & Heq & Hm & Hbefore).
        exists before, h, after. split_and!; [done| |].
        -- by apply EnumProcFile_Some.
        -- intros h' Hin. apply EnumProcFile_None. right. by apply Hbefore.
    + unfold GetWindowHandleByFileName. rewrite enum_until_None.
      split; intros H h Hin.
      * apply H in Hin. apply EnumProcFile_None in Hin as [?|?]; done.
      * apply EnumProcFile_None. right. by apply H.
  - intros fileName' Hci. apply to_lower_eq_ignore_case in Hci.
    unfold GetWindowHandleByFileName. apply enum_until_ext.
    intros h _. unfold EnumProcFile. by rewrite Hci.
  - intros os' Hos. unfold GetWindowHandleByFileName.
    rewrite <- (same_titles_EnumWindows os os' Hos).
    apply enum_until_ext. intros h _.
    by apply same_titles_EnumProcFile.
Qed.

End title_search.

(** ** Re-validation of a tracked entry *)

Section revalidation.

Implicit Types (m : gmap wstring TrackedWindow) (stored : TrackedWindow).

Lemma live_entry_live os filePath m stored :
  m !! filePath = Some stored -> IsWindow os (hwnd stored) = true ->
  live_entry os filePath m = (Some stored, m, [CallIsWindow (hwnd stored)]).
Proof.
  intros Hm Hlive. unfold live_entry, bind, map_find, doIsWindow, called, ret.
  rewrite Hm. simpl. by rewrite Hlive.
Qed.

Lemma live_entry_dead os filePath m stored :
  m !! filePath = Some stored -> IsWindow os (hwnd stored) = false ->
  live_entry os filePath m = (None, m, [CallIsWindow (hwnd stored)]).
Proof.
  intros Hm Hdead. unfold live_entry, bind, map_find, doIsWindow, called, ret.
  rewrite Hm. simpl. by rewrite Hdead.
Qed.

Lemma live_entry_absent os filePath m :
  m !! filePath = None -> live_entry os filePath m = (None, m, []).
Proof.
  intros Hm. unfold live_entry, bind, map_find, ret. by rewrite Hm.
Qed.

(** On a live tracked handle whose stable attributes still match, the
    timer leaves the store as it is and reports the stored handle. *)
Lemma TimerRow_stable_match os fileName m stored :
  m !! row_path fileName = Some stored ->
  IsWindow os (hwnd stored) = true ->
  CompareStableAttributes stored (GetFingerprint os (hwnd stored)) = true ->
  TimerRow os fileName m =
    (Some (hwnd stored), m,
     [CallIsWindow (hwnd stored); CallGetFingerprint (hwnd stored);
      CallCompareStableAttributes stored (GetFingerprint os (hwnd stored))]).
Proof.
  intros Hm Hlive Hsame. unfold TimerRow, bind. cbv zeta.
  rewrite (live_entry_live os _ m stored Hm Hlive).
  unfold doGetFingerprint, doCompareStableAttributes, called, ret.
  by rewrite Hsame.
Qed.

(** When they no longer match, the record is replaced by the fresh
    capture. *)
Lemma TimerRow_stable_mismatch os fileName m stored :
  m !! row_path fileName = Some stored ->
  IsWindow os (hwnd stored) = true ->
  CompareStableAttributes stored (GetFingerprint os (hwnd stored)) = false ->
  TimerRow os fileName m =
    (Some (hwnd stored),
     <[row_path fileName := GetFingerprint os (hwnd stored)]> m,
     [CallIsWindow (hwnd stored); CallGetFingerprint (hwnd stored);
      CallCompareStableAttributes stored (GetFingerprint os (hwnd stored))]).
Proof.
  intros Hm Hlive Hsame. unfold TimerRow, bind. cbv zeta.
  rewrite (live_entry_live os _ m stored Hm Hlive).
  unfold doGetFingerprint, doCompareStableAttributes, called, ret, map_assign.
  by rewrite Hsame.
Qed.

Lemma ActivateOrLaunch_stable_match os w filePath fileName m stored :
  m !! filePath = Some stored ->
  IsWindow os (hwnd stored) = true ->
  CompareStableAttributes stored (GetFingerprint os (hwnd stored)) = true ->
  ActivateOrLaunch os w filePath fileName m =
    (tt, m,
     [CallIsWindow (hwnd stored); CallGetFingerprint (hwnd stored);
      CallCompareStableAttributes stored (GetFingerprint os (hwnd stored));
      CallActivateTrackedWindow (hwnd stored)]).
Proof.
  intros Hm Hlive Hsame. unfold ActivateOrLaunch, bind.
  rewrite (live_entry_live os _ m stored Hm Hlive).
  unfold doGetFingerprint, doCompareStableAttributes, called, ret,
    ActivateTrackedWindow, called.
  by rewrite Hsame.
Qed.

(** C1, as the code has it. For a tracked entry whose stored handle is
    still a live window, when the fresh fingerprint has the stored
    process id and class name but another title, re-validation (the timer
    row and the activation handlers alike) leaves the store unchanged:
    the record keeps its stored title, and its handle and process id. *)
Theorem revalidation_keeps_stored_record os w fileName m stored :
  m !! row_path fileName = Some stored ->
  IsWindow os (hwnd stored) = true ->
  processId (GetFingerprint os (hwnd stored)) = processId stored ->
  className (GetFingerprint os (hwnd stored)) = className stored ->
  windowTitle (GetFingerprint os (hwnd stored)) <> windowTitle stored ->
  (TimerRow os fileName m).1.2 = m
  /\ (TimerRow os fileName m).1.1 = Some (hwnd stored)
  /\ (OnActivateRow os w fileName m).1.2 = m
  /\ forall m', m' = (TimerRow os fileName m).1.2
                \/ m' = (OnActivateRow os w fileName m).1.2 ->
       exists kept, m' !! row_path fileName = Some kept
                    /\ windowTitle kept = windowTitle stored
                    /\ hwnd kept = hwnd stored
                    /\ processId kept = processId stored.
Proof.
  intros Hm Hlive Hpid Hcls _.
  assert (CompareStableAttributes stored (GetFingerprint os (hwnd stored)) = true)
    as Hsame by (by apply CompareStableAttributes_iff).
  unfold OnActivateRow.
  rewrite (TimerRow_stable_match os fileName m stored Hm Hlive Hsame).
  rewrite (ActivateOrLaunch_stable_match os w _ fileName m stored Hm Hlive Hsame).
  simpl. split_and!; [done..|].
  intros m' [->| ->]; exists stored; done.
Qed.

(** C7. When the stored handle of a tracked entry is no longer a window,
    neither the timer row nor the activation handlers capture a
    fingerprint of that handle or call [CompareStableAttributes] at all:
    every fingerprint they capture is of a window that exists, and the
    resolution is the title-substring search on the file name. *)
Theorem dead_handle_falls_through os w fileName m stored :
  m !! row_path fileName = Some stored ->
  IsWindow os (hwnd stored) = false ->
  (let calls := (TimerRow os fileName m).2 in
   ((CallGetFingerprint (hwnd stored) ∉ calls)
    /\ (forall a b, CallCompareStableAttributes a b ∉ calls)
    /\ CallGetWindowHandleByFileName fileName ∈ calls
    /\ (TimerRow os fileName m).1.1 = GetWindowHandleByFileName os fileName))
  /\ (let calls := (OnActivateRow os w fileName m).2 in
      ((CallGetFingerprint (hwnd stored) ∉ calls)
       /\ (forall h, CallGetFingerprint h ∈ calls -> IsWindow os h = true)
       /\ (forall a b, CallCompareStableAttributes a b ∉ calls)
       /\ exists rest,
           calls = [CallIsWindow (hwnd stored);
                    CallGetWindowHandleByFileName fileName] ++ rest)).
Proof.
  intros Hm Hdead. split.
  - unfold TimerRow, bind. cbv zeta.
    rewrite (live_entry_dead os _ m stored Hm Hdead).
    unfold doGetWindowHandleByFileName, called. simpl.
    split_and!; [| |set_solver|done].
    + rewrite !elem_of_cons, elem_of_nil. intros [?|[?|[]]]; discriminate.
    + intros a b. rewrite !elem_of_cons, elem_of_nil.
      intros [?|[?|[]]]; discriminate.
  - unfold OnActivateRow, ActivateOrLaunch, bind.
    rewrite (live_entry_dead os _ m stored Hm Hdead).
    unfold doGetWindowHandleByFileName, called.
    destruct (GetWindowHandleByFileName os fileName) as [h|] eqn:Hfound; simpl.
    + apply GetWindowHandleByFileName_enumerated in Hfound.
      assert (forall h', CallGetFingerprint h' ∈
                [CallIsWindow (hwnd stored);
                 CallGetWindowHandleByFileName fileName;
                 CallGetFingerprint h; CallActivateTrackedWindow h] ->
              h' = h) as Honly.
      { intros h'. rewrite !elem_of_cons, elem_of_nil.
        intros [?|[?|[?|[?|[]]]]]; congruence. }
      split_and!.
      * intros Hin. apply Honly in Hin. congruence.
      * intros h' Hin. apply Honly in Hin. congruence.
      * intros a b. rewrite !elem_of_cons, elem_of_nil.
        intros [?|[?|[?|[?|[]]]]]; discriminate.
      * eauto.
    + split_and!.
      * rewrite !elem_of_cons, elem_of_nil. intros [?|[?|[?|[]]]]; discriminate.
      * intros h'. rewrite !elem_of_cons, elem_of_nil.
        intros [?|[?|[?|[]]]]; discriminate.
      * intros a b. rewrite !elem_of_cons, elem_of_nil.
        intros [?|[?|[?|[]]]]; discriminate.
      * eauto.
Qed.

End revalidation.

(** ** LaunchCoordinator *)

Section launch.

Implicit Types (m : gmap wstring TrackedWindow) (w : World).

Lemma poll_loop_found fuel w hProcess elapsed h :
  (elapsed < maxPollTime)%Z ->
  launched_window w hProcess elapsed = Some h ->
  poll_loop fuel w hProcess elapsed = Some (Some (h, elapsed)).
Proof.
  intros Hlt Hw. destruct fuel; simpl; rewrite decide_True, Hw; done.
Qed.

Lemma poll_loop_sleep fuel w hProcess elapsed :
  (elapsed < maxPollTime)%Z ->
  launched_window w hProcess elapsed = None ->
  poll_loop (S fuel) w hProcess elapsed
  = poll_loop fuel w hProcess (elapsed + pollInterval).
Proof. intros Hlt Hw. simpl. rewrite decide_True, Hw; done. Qed.

Lemma poll_loop_over fuel w hProcess elapsed :
  (maxPollTime <= elapsed)%Z ->
  poll_loop fuel w hProcess elapsed = Some None.
Proof. intros Hge. destruct fuel; simpl; rewrite decide_False; done || lia. Qed.

(** The loop ends: the fuel [poll_fuel] gives is never used up. *)
Lemma poll_loop_terminates w hProcess fuel elapsed :
  (maxPollTime - elapsed <= pollInterval * Z.of_nat fuel)%Z ->
  is_Some (poll_loop fuel w hProcess elapsed).
Proof.
  revert elapsed. induction fuel as [|fuel IH]; intros elapsed Hfuel.
  - rewrite poll_loop_over by lia. eauto.
  - destruct (decide (elapsed < maxPollTime)%Z) as [Hlt|Hge].
    + destruct (launched_window w hProcess elapsed) as [h|] eqn:Hw.
      * erewrite poll_loop_found by done. eauto.
      * rewrite poll_loop_sleep by done. apply IH. unfold pollInterval in *. lia.
    + rewrite poll_loop_over by lia. eauto.
Qed.

Lemma poll_total w hProcess : is_Some (poll_loop (poll_fuel 0) w hProcess 0).
Proof. apply poll_loop_terminates. vm_compute. discriminate. Qed.

(** The side conditions of one pass of the loop, from what is known of
    the window before and after its arrival. *)
Ltac poll_side :=
  unfold maxPollTime, pollInterval in *;
  first [ lia
        | match goal with H : forall t, (_ <= t)%Z -> _ |- _ => apply H; lia end
        | match goal with H : forall t, (t < _)%Z -> _ |- _ => apply H; lia end ].

(** C8. When the shell-open call fails, [LaunchFile] shows the error
    message and returns the tracking map exactly as it received it. *)
Theorem LaunchFile_failure w filePath m :
  ShellExecuteExW w filePath = None ->
  LaunchFile w filePath m
  = (m, [MessageBox (L "Failed to launch file.") (L "Error")]).
Proof. intros Hfail. unfold LaunchFile. by rewrite Hfail. Qed.

(** C2, as the code has it. The loop looks for the window at 0, 250, 500
    and 750 ms and gives up at 1000 ms without a further look. A window
    of the launched process that is there from [T] ms on is recorded,
    with the fingerprint captured by the first look at or after [T], when
    [T <= 750]; when it first appears later (at 999 ms as well as at
    1001 ms) nothing is recorded. *)
Theorem LaunchFile_poll_window w filePath m hProcess h (T : Z) :
  ShellExecuteExW w filePath = Some hProcess ->
  (forall t, (t < T)%Z -> launched_window w hProcess t = None) ->
  (forall t, (T <= t)%Z -> launched_window w hProcess t = Some h) ->
  ((T <= 750)%Z ->
     exists t, t ∈ [0; 250; 500; 750]%Z
               /\ (T <= t)%Z /\ (t = 0 \/ t - 250 < T)%Z
               /\ LaunchFile w filePath m
                  = (<[filePath := GetFingerprint (at_ms w t) h]> m, []))
  /\ ((750 < T)%Z -> LaunchFile w filePath m = (m, [])).
Proof.
  intros Hshell Hbefore Hafter. unfold LaunchFile, poll. rewrite Hshell.
  change (poll_fuel 0) with 4%nat.
  split; intros HT.
  - destruct (decide (T <= 0)%Z).
    { exists 0%Z. rewrite (poll_loop_found _ _ _ _ h) by poll_side.
      simpl. split_and!; [set_solver|lia|lia|done]. }
    rewrite poll_loop_sleep by poll_side.
    destruct (decide (T <= 250)%Z).
    { exists 250%Z. rewrite (poll_loop_found _ _ _ _ h) by poll_side.
      simpl. split_and!; [set_solver|lia|lia|done]. }
    rewrite poll_loop_sleep by poll_side.
    destruct (decide (T <= 500)%Z).
    { exists 500%Z. rewrite (poll_loop_found _ _ _ _ h) by poll_side.
      simpl. split_and!; [set_solver|lia|lia|done]. }
    rewrite poll_loop_sleep by poll_side.
    exists 750%Z. rewrite (poll_loop_found _ _ _ _ h) by poll_side.
    simpl. split_and!; [set_solver|lia|lia|done].
  - do 4 (rewrite poll_loop_sleep by poll_side).
    rewrite poll_loop_over by poll_side. done.
Qed.

End launch.

(** ** TrackingStore: reconciliation on load *)

Section reconcile_on_load.

Implicit Types (m : gmap wstring TrackedWindow).

Lemma window_of_listed os h win :
  window_of os h = Some win -> win ∈ os_windows os.
Proof.
  unfold window_of. intros H. apply find_some in H as [H _].
  by apply list_elem_of_In.
Qed.

Lemma GetMainWindowHandle_no_visible_window os pid :
  no_visible_window os pid -> GetMainWindowHandle os pid = None.
Proof.
  intros Hno. apply enum_until_None. intros h _.
  unfold EnumProcMain, GetWindowThreadProcessId, IsWindowVisible.
  destruct (window_of os h) as [win|] eqn:Hwin; simpl.
  - apply window_of_listed in Hwin.
    destruct (w_visible win) eqn:Hv; [|by rewrite andb_false_r].
    destruct (N.eqb_spec (w_pid win) pid) as [Hp|]; [|done].
    exfalso. exact (Hno win Hwin Hv Hp).
  - by rewrite andb_false_r.
Qed.

Lemma tracked_window_unresolvable os filePath pid :
  no_visible_window os pid ->
  GetWindowHandleByFileName os (base_name filePath) = None ->
  tracked_window os filePath pid = None.
Proof.
  intros Hno Htitle. unfold tracked_window.
  rewrite GetMainWindowHandle_no_visible_window by done.
  unfold base_name in Htitle.
  by destruct (rfind BACKSLASH filePath).
Qed.

Lemma load_line_other os m line filePath :
  (forall pid, parse_record line <> Some (filePath, pid)) ->
  load_line os m line !! filePath = m !! filePath.
Proof.
  intros Hother. unfold load_line.
  destruct (parse_record line) as [[p pid]|]; [|done].
  destruct (tracked_window os p pid); [|done].
  apply lookup_insert_ne. intros ->. by apply (Hother pid).
Qed.

(** C9. For a path whose base file name matches no window title: a
    persisted record of that path whose process owns no visible window
    leaves the map exactly as it was, and after loading a file all of
    whose records for the path are of this kind into the empty map, the
    path is absent from the mapping. *)
Theorem load_drops_unresolvable os filePath :
  GetWindowHandleByFileName os (base_name filePath) = None ->
  (forall line pid m,
      parse_record line = Some (filePath, pid) ->
      no_visible_window os pid ->
      load_line os m line = m)
  /\ (forall text,
        (forall line pid,
            line ∈ getlines text ->
            parse_record line = Some (filePath, pid) ->
            no_visible_window os pid) ->
        LoadTrackingMapping os (Some text) ∅ !! filePath = None).
Proof.
  intros Htitle.
  assert (forall line pid m,
             parse_record line = Some (filePath, pid) ->
             no_visible_window os pid -> load_line os m line = m) as Hline.
  { intros line pid m Hparse Hno. unfold load_line. rewrite Hparse.
    by rewrite tracked_window_unresolvable. }
  split; [exact Hline|].
  intros text. unfold LoadTrackingMapping.
  generalize (getlines text). intros lines.
  assert (forall m, m !! filePath = None ->
            (forall line pid, line ∈ lines ->
               parse_record line = Some (filePath, pid) ->
               no_visible_window os pid) ->
            fold_left (load_line os) lines m !! filePath = None) as Hfold.
  { induction lines as [|line lines IH]; intros m Hm Hall; simpl; [done|].
    apply IH.
    - destruct (parse_record line) as [[p pid]|] eqn:Hparse.
      + destruct (decide (p = filePath)) as [->|Hne].
        * rewrite (Hline line pid m Hparse); [done|].
          eapply Hall; [apply list_elem_of_here | done].
        * rewrite load_line_other; [done|]. intros pid'. congruence.
      + rewrite load_line_other; [done|]. intros pid'. congruence.
    - intros l pid Hin. apply Hall. by apply list_elem_of_further. }
  intros Hall. apply Hfold; [apply lookup_empty | done].
Qed.

End reconcile_on_load.

(** ** The failure counter *)

Section fail_count.

Implicit Types (m : gmap wstring TrackedWindow) (tw : TrackedWindow).

Lemma only_adds_refl m : only_adds_captures m m.
Proof. intros path tw H. by left. Qed.

Lemma only_adds_trans m1 m2 m3 :
  only_adds_captures m1 m2 -> only_adds_captures m2 m3 ->
  only_adds_captures m1 m3.
Proof.
  intros H12 H23 path tw H. apply H23 in H as [H|H]; [by apply H12 | by right].
Qed.

Lemma only_adds_insert m path os h :
  only_adds_captures m (<[path := GetFingerprint os h]> m).
Proof.
  intros p tw. destruct (decide (path = p)) as [->|Hne].
  - rewrite lookup_insert_eq. intros [= <-]. right. by exists os, h.
  - rewrite lookup_insert_ne by done. by left.
Qed.

Create HintDb captures.
#[local] Hint Resolve only_adds_refl only_adds_insert : captures.

Lemma LaunchFile_only_adds w filePath m :
  only_adds_captures m (LaunchFile w filePath m).1.
Proof.
  unfold LaunchFile.
  destruct (ShellExecuteExW w filePath) as [hProcess|]; simpl;
    [|auto with captures].
  destruct (poll w hProcess) as [[h t]|]; simpl; auto with captures.
Qed.

Lemma load_line_only_adds os m line :
  only_adds_captures m (load_line os m line).
Proof.
  unfold load_line.
  destruct (parse_record line) as [[p pid]|]; [|auto with captures].
  destruct (tracked_window os p pid); auto with captures.
Qed.

Lemma LoadTrackingMapping_only_adds os file m :
  only_adds_captures m (LoadTrackingMapping os file m).
Proof.
  unfold LoadTrackingMapping. destruct file as [text|]; [|auto with captures].
  generalize (getlines text). intros lines. revert m.
  induction lines as [|line lines IH]; intros m; simpl; [auto with captures|].
  eapply only_adds_trans; [apply load_line_only_adds | apply IH].
Qed.

Lemma TimerRow_only_adds os fileName m :
  only_adds_captures m (TimerRow os fileName m).1.2.
Proof.
  unfold TimerRow, live_entry, bind, map_find, doIsWindow,
    doGetFingerprint, doCompareStableAttributes,
    doGetWindowHandleByFileName, map_assign, called, ret.
  destruct (m !! row_path fileName) as [stored|]; simpl;
    [|auto with captures].
  destruct (IsWindow os (hwnd stored)); simpl; [|auto with captures].
  destruct (CompareStableAttributes _ _); simpl; auto with captures.
Qed.

Lemma TimerRows_only_adds os rows m :
  only_adds_captures m (TimerRows os rows m).1.2.
Proof.
  revert m. induction rows as [|fileName rows IH]; intros m; simpl.
  - apply only_adds_refl.
  - unfold bind.
    pose proof (TimerRow_only_adds os fileName m) as Hrow.
    destruct (TimerRow os fileName m) as [[r m1] t1]. simpl in Hrow.
    pose proof (IH m1) as Hrest.
    destruct (TimerRows os rows m1) as [[rs m2] t2]. simpl in *.
    by eapply only_adds_trans.
Qed.

Lemma ActivateOrLaunch_only_adds os w filePath fileName m :
  only_adds_captures m (ActivateOrLaunch os w filePath fileName m).1.2.
Proof.
  unfold ActivateOrLaunch, live_entry, bind, map_find, doIsWindow,
    doGetFingerprint, doCompareStableAttributes,
    doGetWindowHandleByFileName, doLaunchFile, ActivateTrackedWindow,
    map_assign, called, ret.
  destruct (m !! filePath) as [stored|]; simpl.
  - destruct (IsWindow os (hwnd stored)); simpl.
    + destruct (CompareStableAttributes _ _); simpl; auto with captures.
    + destruct (GetWindowHandleByFileName os fileName); simpl;
        [auto with captures | apply LaunchFile_only_adds].
  - destruct (GetWindowHandleByFileName os fileName); simpl;
      [auto with captures | apply LaunchFile_only_adds].
Qed.

Lemma step_only_adds m m' : step m m' -> only_adds_captures m m'.
Proof.
  destruct 1.
  - apply LoadTrackingMapping_only_adds.
  - apply LaunchFile_only_adds.
  - apply TimerRows_only_adds.
  - apply ActivateOrLaunch_only_adds.
  - apply ActivateOrLaunch_only_adds.
Qed.

Lemma reachable_captured m :
  reachable m -> forall path tw, m !! path = Some tw -> captured tw.
Proof.
  induction 1 as [|m m' _ IH Hstep]; intros path tw Hl.
  - by rewrite lookup_empty in Hl.
  - apply (step_only_adds _ _ Hstep) in Hl as [Hl|Hl]; [by eapply IH | done].
Qed.

(** C10. [GetFingerprint] sets [failCount] to 0; every operation on the
    store (load, launch, timer, activation) only keeps entries or stores
    results of [GetFingerprint]; so every record of every map the program
    can reach has [failCount] 0. The two comparisons do not depend on the
    counter. *)
Theorem failCount_always_zero :
  (forall os h, failCount (GetFingerprint os h) = 0%Z)
  /\ (forall m m',
        step m m' ->
        forall path tw,
          m' !! path = Some tw ->
          m !! path = Some tw \/ exists os h, tw = GetFingerprint os h)
  /\ (forall m,
        reachable m ->
        forall path tw, m !! path = Some tw -> failCount tw = 0%Z)
  /\ (forall n n' stored current,
        CompareStableAttributes (with_failCount n stored)
                                (with_failCount n' current)
        = CompareStableAttributes stored current
        /\ CompareFingerprints (with_failCount n stored)
                               (with_failCount n' current)
           = CompareFingerprints stored current).
Proof.
  split_and!.
  - reflexivity.
  - intros m m' Hstep. exact (step_only_adds m m' Hstep).
  - intros m Hreach path tw Hl.
    destruct (reachable_captured m Hreach path tw Hl) as (os & h & ->).
    reflexivity.
  - intros n n' stored current. split; reflexivity.
Qed.

End fail_count.

Section scenarios.

Lemma late_world_before T t hProcess :
  (t < T)%Z -> launched_window (late_world T) hProcess t = None.
Proof.
  intros Hlt. unfold launched_window, late_world. simpl.
  rewrite (proj2 (Z.ltb_lt t T)) by done. reflexivity.
Qed.

Lemma late_world_after T t (p : HANDLE) :
  (T <= t)%Z ->
  launched_window (late_world T) (Some p) t = Some 17%positive.
Proof.
  intros Hge. unfold launched_window, late_world. simpl.
  rewrite (proj2 (Z.ltb_ge t T)) by done. reflexivity.
Qed.

Lemma word_os_no_visible_window pid :
  pid <> 4242 -> no_visible_window word_os pid.
Proof.
  intros Hne win Hin _. simpl in Hin.
  apply list_elem_of_singleton in Hin as ->. simpl. congruence.
Qed.

End scenarios.

(** ** TrackingStore: what a round trip through the tracking file keeps *)

Section round_trip.

Implicit Types (m : gmap wstring TrackedWindow) (s : wstring).

Lemma span_app (p : wchar_t -> bool) a b :
  Forall (fun c => p c = true) a ->
  (forall c r, b = c :: r -> p c = false) ->
  span p (a ++ b) = (a, b).
Proof.
  intros Ha Hb. induction Ha as [|c a Hc _ IH]; simpl.
  - destruct b as [|c r]; [done|]. simpl. by rewrite (Hb c r).
  - by rewrite Hc, IH.
Qed.

Lemma digits_value_from acc ds :
  fold_left (fun a c => 10 * a + (c - 48)) ds acc
  = acc * 10 ^ N.of_nat (length ds) + digits_value ds.
Proof.
  unfold digits_value. revert acc.
  induction ds as [|c ds IH]; intros acc; simpl fold_left.
  - simpl. lia.
  - rewrite IH, (IH (10 * 0 + (c - 48))).
    rewrite length_cons, Nat2N.inj_succ, N.pow_succ_r'. lia.
Qed.

Lemma digits_value_cons c ds :
  digits_value (c :: ds) = (c - 48) * 10 ^ N.of_nat (length ds) + digits_value ds.
Proof.
  unfold digits_value at 1. simpl fold_left. rewrite digits_value_from. lia.
Qed.

Lemma put_digits_spec fuel n acc :
  n < 10 ^ N.of_nat fuel ->
  Forall (fun c => is_digit c = true) acc ->
  Forall (fun c => is_digit c = true) (put_digits fuel n acc)
  /\ digits_value (put_digits fuel n acc)
     = n * 10 ^ N.of_nat (length acc) + digits_value acc.
Proof.
  revert n acc. induction fuel as [|fuel IH]; intros n acc Hn Hacc.
  - simpl in *. split; [done|]. assert (n = 0) as -> by lia. lia.
  - rewrite Nat2N.inj_succ, N.pow_succ_r' in Hn.
    assert (n mod 10 < 10) as Hmod by (apply N.mod_lt; lia).
    assert (n = 10 * (n / 10) + n mod 10) as Hdiv by (apply N.div_mod; lia).
    simpl put_digits.
    remember (n mod 10) as r eqn:Er. remember (n / 10) as q eqn:Eq.
    clear Er Eq.
    assert (Forall (fun c => is_digit c = true) ((48 + r) :: acc)) as Hacc'.
    { constructor; [|done]. unfold is_digit.
      apply andb_true_iff. rewrite !N.leb_le. lia. }
    assert (digits_value ((48 + r) :: acc)
            = r * 10 ^ N.of_nat (length acc) + digits_value acc) as Hv.
    { rewrite digits_value_cons. f_equal. f_equal. lia. }
    destruct (N.eqb_spec q 0) as [Hz|Hnz].
    + split; [done|]. rewrite Hv. f_equal. f_equal. lia.
    + destruct (IH q ((48 + r) :: acc)) as [Hd Hval]; [lia | done |].
      split; [done|]. rewrite Hval, Hv.
      rewrite length_cons, Nat2N.inj_succ, N.pow_succ_r'.
      set (P := 10 ^ N.of_nat (length acc)) in *.
      rewrite Hdiv. lia.
Qed.

Lemma put_digits_nonempty fuel n acc : acc <> [] -> put_digits fuel n acc <> [].
Proof.
  revert n acc. induction fuel as [|fuel IH]; intros n acc Hacc; simpl; [done|].
  destruct (n / 10 =? 0); [done|]. by apply IH.
Qed.

Lemma put_digits_S_nonempty fuel n acc : put_digits (S fuel) n acc <> [].
Proof.
  simpl. destruct (n / 10 =? 0); [done|]. by apply put_digits_nonempty.
Qed.

Lemma write_DWORD_spec n :
  n < 2 ^ 32 ->
  write_DWORD n <> []
  /\ Forall (fun c => is_digit c = true) (write_DWORD n)
  /\ digits_value (write_DWORD n) = n.
Proof.
  intros Hn. unfold write_DWORD. split_and!.
  - apply (put_digits_S_nonempty 9).
  - apply put_digits_spec; [|constructor].
    eapply N.lt_trans; [exact Hn | by vm_compute].
  - destruct (put_digits_spec 10 n []) as [_ Hv]; [|constructor|].
    + eapply N.lt_trans; [exact Hn | by vm_compute].
    + rewrite Hv. simpl. unfold digits_value. simpl. lia.
Qed.

Lemma is_digit_not_space c : is_digit c = true -> iswspace c = false.
Proof.
  unfold is_digit, iswspace. rewrite andb_true_iff, !N.leb_le. intros [H1 H2].
  apply orb_false_iff. split.
  - apply N.eqb_neq. lia.
  - apply andb_false_iff. right. apply N.leb_gt. lia.
Qed.

Lemma read_wstring_token path rest :
  one_token path ->
  (forall c r, rest = c :: r -> iswspace c = true) ->
  read_wstring (path ++ rest) = Some (path, rest).
Proof.
  intros [Hne Hns] Hrest. unfold read_wstring, skipws.
  destruct path as [|c path]; [done|].
  pose proof Hns as [Hc _]%Forall_cons.
  simpl span at 2. rewrite Hc. simpl snd.
  change (c :: path ++ rest) with ((c :: path) ++ rest).
  rewrite (span_app (fun c => negb (iswspace c)) (c :: path) rest).
  - by rewrite bool_decide_eq_false_2.
  - eapply Forall_impl; [exact Hns|]. intros x Hx. simpl. by rewrite Hx.
  - intros c' r Heq. by rewrite (Hrest c' r Heq).
Qed.

Lemma read_DWORD_written n :
  n < 2 ^ 32 -> read_DWORD (TAB :: write_DWORD n) = Some (n, []).
Proof.
  intros Hn. destruct (write_DWORD_spec n Hn) as (Hdne & Hdig & Hval).
  unfold read_DWORD, skipws.
  destruct (write_DWORD n) as [|d ds] eqn:Hw; [done|].
  apply Forall_cons in Hdig as [Hd Hds].
  assert (span iswspace (TAB :: d :: ds) = ([TAB], d :: ds)) as ->.
  { simpl. by rewrite (is_digit_not_space d Hd). }
  simpl snd.
  assert (read_sign (d :: ds) = (false, d :: ds)) as ->.
  { unfold is_digit in Hd. apply andb_true_iff in Hd as [Hd _].
    destruct d as [|p]; [done|].
    repeat (destruct p as [p|p|]; try done). }
  rewrite <- (app_nil_r (d :: ds)) at 1.
  rewrite (span_app is_digit (d :: ds) []);
    [|by apply Forall_cons|intros ? ? [=]].
  rewrite bool_decide_eq_false_2 by done.
  rewrite Hval. rewrite (proj2 (N.leb_gt _ _)) by done. reflexivity.
Qed.

Lemma parse_record_record_text path tw :
  one_token path -> processId tw < 2 ^ 32 ->
  parse_record (record_text (path, tw)) = Some (path, processId tw).
Proof.
  intros Htok Hpid. unfold parse_record, record_text. simpl fst. simpl snd.
  rewrite read_wstring_token; [|done|by intros c r [= <- _]].
  simpl. by rewrite read_DWORD_written.
Qed.

Lemma getlines_from_line cur l rest :
  NEWLINE ∉ l ->
  getlines_from cur (l ++ [NEWLINE] ++ rest)
  = (rev cur ++ l) :: getlines_from [] rest.
Proof.
  revert cur. induction l as [|c l IH]; intros cur Hnl; simpl.
  - by rewrite app_nil_r.
  - apply not_elem_of_cons in Hnl as [Hc Hl].
    rewrite (proj2 (N.eqb_neq c NEWLINE)) by done.
    rewrite IH by done. simpl. by rewrite <- app_assoc.
Qed.

Lemma record_text_no_newline path tw :
  one_token path -> processId tw < 2 ^ 32 -> NEWLINE ∉ record_text (path, tw).
Proof.
  intros [_ Hns] Hpid.
  destruct (write_DWORD_spec (processId tw) Hpid) as (_ & Hdig & _).
  unfold record_text. simpl. rewrite elem_of_app, elem_of_cons.
  intros [Hin|[Hin|Hin]].
  - rewrite Forall_forall in Hns. apply Hns in Hin. discriminate.
  - discriminate.
  - rewrite Forall_forall in Hdig. apply Hdig in Hin. discriminate.
Qed.

Lemma getlines_records os es :
  Forall (survives os) es ->
  getlines (concat (map record_line es)) = map record_text es.
Proof.
  unfold getlines. induction 1 as [|[path tw] es (Htok & Hpid & _) _ IH]; simpl.
  - reflexivity.
  - unfold record_line at 1. simpl.
    change (path ++ TAB :: write_DWORD (processId tw) ++ [NEWLINE])
      with (path ++ [TAB] ++ write_DWORD (processId tw) ++ [NEWLINE]).
    replace ((path ++ [TAB] ++ write_DWORD (processId tw) ++ [NEWLINE])
             ++ concat (map record_line es))
      with (record_text (path, tw) ++ [NEWLINE] ++ concat (map record_line es)).
    2: { unfold record_text. simpl. by repeat (rewrite <- app_assoc; simpl). }
    rewrite getlines_from_line by (by apply record_text_no_newline).
    simpl. by rewrite IH.
Qed.

Lemma load_records_dom os es m :
  Forall (survives os) es ->
  dom (fold_left (load_line os) (map record_text es) m)
  = dom m ∪ list_to_set (es.*1).
Proof.
  intros Hes. revert m.
  induction Hes as [|[path tw] es (Htok & Hpid & [h Hh]) _ IH]; intros m; simpl.
  - by rewrite (right_id_L ∅ (∪)).
  - rewrite IH.
    assert (load_line os m (record_text (path, tw))
            = <[path := GetFingerprint os h]> m) as ->.
    { unfold load_line. rewrite parse_record_record_text by done.
      unfold tracked_window. simpl in Hh. by rewrite Hh. }
    rewrite dom_insert_L.
    by rewrite (comm_L (∪) {[path]} (dom m)), <- (assoc_L (∪)).
Qed.

(** Serializing and loading back against a desktop on which every tracked
    process still owns a visible window reproduces the key set, provided
    every key is one token for the reader: not empty and free of white
    space. *)
Lemma roundtrip_keys_without_space os m :
  (forall path tw, m !! path = Some tw -> survives os (path, tw)) ->
  dom (LoadTrackingMapping os (SaveTrackingMapping true m) ∅) = dom m.
Proof.
  intros Hm. unfold SaveTrackingMapping, LoadTrackingMapping.
  assert (Forall (survives os) (entries m)) as Hes.
  { apply Forall_forall. intros [path tw] Hin. apply Hm.
    unfold entries in Hin. rewrite merge_sort_Permutation in Hin.
    by apply elem_of_map_to_list in Hin. }
  rewrite (getlines_records os) by done.
  rewrite load_records_dom by done.
  rewrite dom_empty_L, (left_id_L ∅ (∪)). unfold entries.
  apply leibniz_equiv. rewrite dom_alt.
  apply list_to_set_perm, fmap_Permutation, merge_sort_Permutation.
Qed.

End round_trip.

(** ** The properties on the scenarios *)

Section on_scenarios.

(** C1 as stated fails: the document window is live and its fresh
    fingerprint has the stored process id and class name and the new
    title "Document1.docx - Word", yet after the timer row, and after an
    activation, the stored title is still "Document1 - Word". *)
Lemma revalidation_title_not_refreshed :
  doc_store !! row_path doc_name = Some drift_stored
  /\ IsWindow word_os (hwnd drift_stored) = true
  /\ processId (GetFingerprint word_os (hwnd drift_stored))
     = processId drift_stored
  /\ className (GetFingerprint word_os (hwnd drift_stored))
     = className drift_stored
  /\ windowTitle (GetFingerprint word_os (hwnd drift_stored))
     = L "Document1.docx - Word"
  /\ windowTitle <$> (TimerRow word_os doc_name doc_store).1.2
                       !! row_path doc_name
     = Some (L "Document1 - Word")
  /\ windowTitle <$> (OnActivateRow word_os no_launch_world doc_name
                                     doc_store).1.2 !! row_path doc_name
     = Some (L "Document1 - Word").
Proof. vm_compute. repeat split. Qed.

(** The document scenario meets the premises of C1. *)
Lemma revalidation_keeps_stored_record_witness :
  (TimerRow word_os doc_name doc_store).1.2 = doc_store
  /\ (TimerRow word_os doc_name doc_store).1.1 = Some 17%positive
  /\ (OnActivateRow word_os no_launch_world doc_name doc_store).1.2
     = doc_store.
Proof.
  pose proof (revalidation_keeps_stored_record
                word_os no_launch_world doc_name doc_store drift_stored)
    as H.
  destruct H as (H1 & H2 & H3 & _);
    [by vm_compute | by vm_compute | by vm_compute | by vm_compute
    | by vm_compute |].
  exact (conj H1 (conj H2 H3)).
Defined.

(** C2 as stated fails: the shell-open call succeeds and the window of
    the launched process is there from 999 ms on (not before), yet
    [LaunchFile] records nothing. *)
Lemma window_at_999ms_not_captured :
  ShellExecuteExW (late_world 999) (row_path doc_name)
  = Some (Some 99%positive)
  /\ (forall t, (t < 999)%Z ->
        launched_window (late_world 999) (Some 99%positive) t = None)
  /\ (forall t, (999 <= t)%Z ->
        launched_window (late_world 999) (Some 99%positive) t
        = Some 17%positive)
  /\ LaunchFile (late_world 999) (row_path doc_name) ∅ = (∅, [])
  /\ (LaunchFile (late_world 999) (row_path doc_name) ∅).1
       !! row_path doc_name = None.
Proof.
  split_and!.
  - reflexivity.
  - intros t Ht. by apply late_world_before.
  - intros t Ht. by apply late_world_after.
  - by vm_compute.
  - by vm_compute.
Qed.

(** A window arriving at 750 ms is recorded by the last look; one
    arriving at 1001 ms is not. *)
Lemma LaunchFile_poll_window_witness :
  LaunchFile (late_world 750) (row_path doc_name) ∅
  = (<[row_path doc_name := GetFingerprint word_os 17%positive]> ∅, [])
  /\ LaunchFile (late_world 1001) (row_path doc_name) ∅ = (∅, []).
Proof.
  split.
  - destruct (LaunchFile_poll_window (late_world 750) (row_path doc_name) ∅
                (Some 99%positive) 17%positive 750) as [Hin _].
    + reflexivity.
    + intros t Ht. by apply late_world_before.
    + intros t Ht. by apply late_world_after.
    + destruct Hin as (t & Hin & HT & _ & Heq); [lia|].
      rewrite Heq. clear Heq.
      assert (t = 750%Z) as -> by (set_unfold; lia).
      reflexivity.
  - apply (LaunchFile_poll_window (late_world 1001) (row_path doc_name) ∅
             (Some 99%positive) 17%positive 1001).
    + reflexivity.
    + intros t Ht. by apply late_world_before.
    + intros t Ht. by apply late_world_after.
    + lia.
Defined.

(** A record compared with itself. *)
Lemma CompareFingerprints_stronger_witness :
  CompareFingerprints drift_stored drift_stored = true
  /\ CompareStableAttributes drift_stored drift_stored = true.
Proof.
  assert (CompareFingerprints drift_stored drift_stored = true) as H
    by reflexivity.
  split; [exact H|].
  exact (proj1 CompareFingerprints_stronger drift_stored drift_stored H).
Defined.

(** A shortcut named in capitals finds the document window; the bare
    extension finds nothing. *)
Lemma GetWindowHandleByFileName_spec_witness :
  StripLnkExtension (to_lower (L "DOCUMENT1.DOCX.LNK")) = L "document1.docx"
  /\ GetWindowHandleByFileName word_os (L "DOCUMENT1.DOCX.LNK")
     = Some 17%positive
  /\ GetWindowHandleByFileName word_os (L ".lnk") = None.
Proof.
  destruct (GetWindowHandleByFileName_spec word_os (L "DOCUMENT1.DOCX.LNK"))
    as ((Hstrip & _) & _ & Hfirst & _).
  destruct (GetWindowHandleByFileName_spec word_os (L ".lnk"))
    as (_ & Hempty & _).
  split_and!.
  - by apply Hstrip.
  - apply Hfirst; [by vm_compute|].
    exists [], []. split_and!.
    + reflexivity.
    + exists [], (L " - word"). reflexivity.
    + intros h' Hin. by apply elem_of_nil in Hin.
  - by apply Hempty.
Defined.

(** After the document was reopened the stored handle is dead and the
    timer row finds the new window by its title. *)
Lemma dead_handle_falls_through_witness :
  IsWindow reopened_os (hwnd drift_stored) = false
  /\ (TimerRow reopened_os doc_name doc_store).1.1
     = GetWindowHandleByFileName reopened_os doc_name
  /\ GetWindowHandleByFileName reopened_os doc_name = Some 23%positive.
Proof.
  assert (IsWindow reopened_os (hwnd drift_stored) = false) as Hdead
    by reflexivity.
  destruct (dead_handle_falls_through reopened_os no_launch_world doc_name
              doc_store drift_stored) as ((_ & _ & _ & Hres) & _).
  - by vm_compute.
  - exact Hdead.
  - split_and!; [exact Hdead | exact Hres | by vm_compute].
Defined.

(** A failed launch leaves the document store as it was. *)
Lemma LaunchFile_failure_witness :
  ShellExecuteExW no_launch_world (row_path doc_name) = None
  /\ LaunchFile no_launch_world (row_path doc_name) doc_store
     = (doc_store, [MessageBox (L "Failed to launch file.") (L "Error")]).
Proof.
  split; [reflexivity|].
  apply (LaunchFile_failure no_launch_world (row_path doc_name) doc_store).
  reflexivity.
Defined.

(** A record of the vanished process 777 for notes.txt is dropped. *)
Lemma load_drops_unresolvable_witness :
  GetWindowHandleByFileName word_os (base_name notes_path) = None
  /\ parse_record (notes_path ++ [TAB] ++ L "777") = Some (notes_path, 777)
  /\ no_visible_window word_os 777
  /\ LoadTrackingMapping word_os (Some notes_text) ∅ !! notes_path = None.
Proof.
  assert (GetWindowHandleByFileName word_os (base_name notes_path) = None)
    as Htitle by (by vm_compute).
  assert (no_visible_window word_os 777) as Hno
    by (by apply word_os_no_visible_window).
  split_and!; [exact Htitle | by vm_compute | exact Hno |].
  apply (proj2 (load_drops_unresolvable word_os notes_path Htitle)).
  intros line pid Hin Hparse.
  assert (getlines notes_text = [notes_path ++ [TAB] ++ L "777"]) as Hlines
    by (by vm_compute).
  rewrite Hlines in Hin. apply list_elem_of_singleton in Hin as ->.
  assert (pid = 777) as ->; [|exact Hno].
  vm_compute in Hparse. congruence.
Defined.

(** The store after one successful launch. *)
Lemma failCount_always_zero_witness :
  reachable (LaunchFile (late_world 0) (row_path doc_name) ∅).1
  /\ (LaunchFile (late_world 0) (row_path doc_name) ∅).1
       !! row_path doc_name = Some (GetFingerprint word_os 17%positive)
  /\ failCount (GetFingerprint word_os 17%positive) = 0%Z.
Proof.
  assert (reachable (LaunchFile (late_world 0) (row_path doc_name) ∅).1)
    as Hreach.
  { eapply reachable_step; [apply reachable_start | apply step_launch]. }
  assert ((LaunchFile (late_world 0) (row_path doc_name) ∅).1
            !! row_path doc_name
          = Some (GetFingerprint word_os 17%positive)) as Hl
    by (by vm_compute).
  split_and!; [exact Hreach | exact Hl |].
  destruct failCount_always_zero as (_ & _ & Hzero & _).
  exact (Hzero _ Hreach _ _ Hl).
Defined.

(** C3 fails on the code: the store tracks "C:\tmp\my file.txt" for
    process 4242, which still owns a visible window; the text written is
    the path, a tab and 4242; loading it back into an empty map reads
    the path only up to the space, fails to read a number from
    "file.txt", skips the record and yields the empty map. *)
Lemma roundtrip_loses_path_with_space :
  dom spaced_store = {[ spaced_path ]}
  /\ GetMainWindowHandle word_os (processId drift_stored) = Some 17%positive
  /\ SaveTrackingMapping true spaced_store
     = Some (L "C:\tmp\my file.txt" ++ [TAB] ++ L "4242" ++ [NEWLINE])
  /\ parse_record (L "C:\tmp\my file.txt" ++ [TAB] ++ L "4242") = None
  /\ LoadTrackingMapping word_os (SaveTrackingMapping true spaced_store) ∅
     = ∅.
Proof. split_and!; by vm_compute. Qed.

End on_scenarios.

(** * Further properties of the code *)

(** ** FingerprintUtils.cpp: the two comparisons as relations *)

Section comparisons_as_relations.

Lemma CompareFingerprints_fields (a b : TrackedWindow) :
  CompareFingerprints a b = true <->
    processId a = processId b
    /\ className a = className b
    /\ rect a = rect b
    /\ to_lower (windowTitle a) = to_lower (windowTitle b).
Proof.
  unfold CompareFingerprints.
  destruct (rect a) as [la ta ra ba], (rect b) as [lb tb rb bb]. simpl.
  destruct (N.eqb_spec (processId a) (processId b)); simpl;
    [|split; [discriminate | intros (? & _); done]].
  destruct (weqb (className a) (className b)) eqn:Hc; simpl.
  2: { split; [discriminate|]. intros (_ & Hcls & _).
       apply weqb_true in Hcls. congruence. }
  apply weqb_true in Hc.
  destruct (Z.eqb_spec la lb); simpl;
    [|split; [discriminate | intros (_ & _ & [=] & _); done]].
  destruct (Z.eqb_spec ta tb); simpl;
    [|split; [discriminate | intros (_ & _ & [=] & _); done]].
  destruct (Z.eqb_spec ra rb); simpl;
    [|split; [discriminate | intros (_ & _ & [=] & _); done]].
  destruct (Z.eqb_spec ba bb); simpl;
    [|split; [discriminate | intros (_ & _ & [=] & _); done]].
  rewrite weqb_true. subst. tauto.
Qed.

Lemma CompareStableAttributes_equiv :
  (forall f, CompareStableAttributes f f = true)
  /\ (forall a b, CompareStableAttributes a b = CompareStableAttributes b a)
  /\ (forall a b c,
        CompareStableAttributes a b = true ->
        CompareStableAttributes b c = true ->
        CompareStableAttributes a c = true).
Proof.
  split_and!.
  - apply CompareStableAttributes_refl.
  - intros a b.
    destruct (CompareStableAttributes a b) eqn:Hab;
      destruct (CompareStableAttributes b a) eqn:Hba; try done.
    + apply CompareStableAttributes_iff in Hab as [? ?].
      assert (CompareStableAttributes b a = true)
        by (by apply CompareStableAttributes_iff). congruence.
    + apply CompareStableAttributes_iff in Hba as [? ?].
      assert (CompareStableAttributes a b = true)
        by (by apply CompareStableAttributes_iff). congruence.
  - intros a b c [? ?]%CompareStableAttributes_iff [? ?]%CompareStableAttributes_iff.
    apply CompareStableAttributes_iff. split; congruence.
Qed.

Lemma CompareFingerprints_equiv :
  (forall f, CompareFingerprints f f = true)
  /\ (forall a b, CompareFingerprints a b = CompareFingerprints b a)
  /\ (forall a b c,
        CompareFingerprints a b = true ->
        CompareFingerprints b c = true ->
        CompareFingerprints a c = true).
Proof.
  split_and!.
  - intros f. by apply CompareFingerprints_fields.
  - intros a b.
    destruct (CompareFingerprints a b) eqn:Hab;
      destruct (CompareFingerprints b a) eqn:Hba; try done.
    + apply CompareFingerprints_fields in Hab as (? & ? & ? & ?).
      assert (CompareFingerprints b a = true)
        by (by apply CompareFingerprints_fields). congruence.
    + apply CompareFingerprints_fields in Hba as (? & ? & ? & ?).
      assert (CompareFingerprints a b = true)
        by (by apply CompareFingerprints_fields). congruence.
  - intros a b c (? & ? & ? & ?)%CompareFingerprints_fields
                 (? & ? & ? & ?)%CompareFingerprints_fields.
    apply CompareFingerprints_fields. split_and!; congruence.
Qed.

(** X1. [CompareStableAttributes] and [CompareFingerprints] are equivalences
    on fingerprints, the second although it compares titles up to case:
    every fingerprint matches itself, the order of the arguments does not
    matter, and matches chain. *)
Theorem comparisons_are_equivalences :
  ((forall f, CompareStableAttributes f f = true)
   /\ (forall a b, CompareStableAttributes a b = CompareStableAttributes b a)
   /\ (forall a b c,
         CompareStableAttributes a b = true ->
         CompareStableAttributes b c = true ->
         CompareStableAttributes a c = true))
  /\ ((forall f, CompareFingerprints f f = true)
      /\ (forall a b, CompareFingerprints a b = CompareFingerprints b a)
      /\ (forall a b c,
            CompareFingerprints a b = true ->
            CompareFingerprints b c = true ->
            CompareFingerprints a c = true)).
Proof.
  split; [exact CompareStableAttributes_equiv | exact CompareFingerprints_equiv].
Qed.

End comparisons_as_relations.

(** ** WindowUtils.cpp: the lookups by process, by title and by class *)

Section more_lookups.

Lemma EnumProcMain_Some os processID h r :
  EnumProcMain os processID h = Some r <->
    r = h /\ owned_and_visible os processID h.
Proof.
  unfold EnumProcMain, owned_and_visible.
  destruct (N.eqb_spec (GetWindowThreadProcessId os h) processID);
    destruct (IsWindowVisible os h); simpl;
    (split; [intros [= <-] || discriminate | intros (-> & ? & ?)]);
    done.
Qed.

Lemma EnumProcMain_None os processID h :
  EnumProcMain os processID h = None <-> ~ owned_and_visible os processID h.
Proof.
  destruct (EnumProcMain os processID h) as [r|] eqn:He.
  - apply EnumProcMain_Some in He as [_ He]. split; [discriminate | done].
  - split; [|done]. intros _ Hown.
    assert (EnumProcMain os processID h = Some h)
      by (by apply EnumProcMain_Some).
    congruence.
Qed.

Lemma GetMainWindowHandle_owned os processID h :
  GetMainWindowHandle os processID = Some h ->
  owned_and_visible os processID h.
Proof.
  unfold GetMainWindowHandle.
  intros (_ & h0 & _ & _ & Hcb & _)%enum_until_Some.
  by apply EnumProcMain_Some in Hcb as [-> ?].
Qed.

(** X2. [GetMainWindowHandle] returns the first window of the enumeration
    that is visible and owned by the process, and no window exactly when
    the enumeration holds none. *)
Theorem GetMainWindowHandle_first_visible (os : OS) (processID : DWORD) :
  (forall h,
      GetMainWindowHandle os processID = Some h <->
        exists before after,
          EnumWindows os = before ++ h :: after
          /\ owned_and_visible os processID h
          /\ forall h', h' ∈ before -> ~ owned_and_visible os processID h')
  /\ (GetMainWindowHandle os processID = None <->
        forall h, h ∈ EnumWindows os -> ~ owned_and_visible os processID h).
Proof.
  unfold GetMainWindowHandle. split.
  - intros h. rewrite enum_until_Some. split.
    + intros (before & h0 & after & Heq & Hcb & Hbefore).
      apply EnumProcMain_Some in Hcb as [-> Hown].
      exists before, after. split_and!; [done..|].
      intros h' Hin. apply EnumProcMain_None. by apply Hbefore.
    + intros (before & after & Heq & Hown & Hbefore).
      exists before, h, after. split_and!; [done| |].
      * by apply EnumProcMain_Some.
      * intros h' Hin. apply EnumProcMain_None. by apply Hbefore.
  - rewrite enum_until_None.
    split; intros H h Hin; apply EnumProcMain_None; by apply H.
Qed.

Lemma EnumProcIsFile_Some os fileName h :
  EnumProcIsFile os fileName h = Some tt <->
    GetWindowText os h <> [] /\ contains fileName (GetWindowText os h).
Proof.
  unfold EnumProcIsFile, GetWindowTextLength. rewrite <- find_contains.
  destruct (GetWindowText os h) as [|c t] eqn:Ht.
  - case_decide; [simpl in *; lia|].
    split; [discriminate | intros [? _]; done].
  - case_decide; [|simpl in *; lia].
    case_bool_decide; split; try done. by intros [_ ?].
Qed.

Lemma IsFileWindowOpen_true os name :
  IsFileWindowOpen os name = true <->
    exists h, h ∈ EnumWindows os
              /\ GetWindowText os h <> []
              /\ contains name (GetWindowText os h).
Proof.
  unfold IsFileWindowOpen.
  destruct (enum_until _ _) as [[]|] eqn:He.
  - split; [intros _|done].
    apply enum_until_Some in He as (before & h & after & Heq & Hcb & _).
    apply EnumProcIsFile_Some in Hcb as [? ?].
    exists h. split_and!; [|done..].
    rewrite Heq. apply elem_of_app. right. apply list_elem_of_here.
  - split; [discriminate|]. intros (h & Hin & Hne & Hc). exfalso.
    apply (proj1 (enum_until_None _ _) He) in Hin.
    assert (EnumProcIsFile os name h = Some tt)
      by (by apply EnumProcIsFile_Some).
    congruence.
Qed.

(** X3. [IsFileWindowOpen] answers true exactly when some enumerated window
    has a non-empty title that contains the name as it is written (no
    folding of case, no stripping of ".lnk"); for the empty name that is
    any window with a title. *)
Theorem IsFileWindowOpen_iff (os : OS) (fileName : wstring) :
  (IsFileWindowOpen os fileName = true <->
     exists h, h ∈ EnumWindows os
               /\ GetWindowText os h <> []
               /\ contains fileName (GetWindowText os h))
  /\ (IsFileWindowOpen os [] = true <->
        exists h, h ∈ EnumWindows os /\ GetWindowText os h <> []).
Proof.
  split; [apply IsFileWindowOpen_true|].
  rewrite IsFileWindowOpen_true. split.
  - intros (h & ? & ? & _). eauto.
  - intros (h & ? & ?). exists h. split_and!; [done..|].
    exists [], (GetWindowText os h). done.
Qed.

Lemma to_lower_app s t : to_lower (s ++ t) = to_lower s ++ to_lower t.
Proof. unfold to_lower. apply map_app. Qed.

Lemma contains_to_lower needle hay :
  contains needle hay -> contains (to_lower needle) (to_lower hay).
Proof.
  intros (pre & post & ->). exists (to_lower pre), (to_lower post).
  by rewrite !to_lower_app.
Qed.

(** X4. A name that [IsFileWindowOpen] finds is found by
    [GetWindowHandleByFileName] as well, provided it is not empty and,
    lower-cased, is not ".lnk" alone (then the stripped name is empty). *)
Theorem IsFileWindowOpen_found_by_title_search (os : OS) (fileName : wstring) :
  IsFileWindowOpen os fileName = true ->
  StripLnkExtension (to_lower fileName) <> [] ->
  is_Some (GetWindowHandleByFileName os fileName).
Proof.
  intros Hopen Hkey.
  apply IsFileWindowOpen_true in Hopen as (h & Hin & Hne & Hc).
  destruct (GetWindowHandleByFileName os fileName) as [h'|] eqn:Hg; [eauto|].
  exfalso. unfold GetWindowHandleByFileName in Hg.
  apply (proj1 (enum_until_None _ _) Hg) in Hin.
  apply EnumProcFile_None in Hin as [Hin|Hin]; [done|].
  apply Hin. apply contains_to_lower in Hc.
  destruct Hc as (pre & post & Hc). rewrite Hc.
  set (lower := to_lower fileName) in *.
  unfold StripLnkExtension, substr_from, substr_to in *.
  case_decide; [|by exists pre, post].
  destruct (weqb _ _); [|by exists pre, post].
  exists pre, (drop (length lower - length (L ".lnk")) lower ++ post).
  rewrite (app_assoc (take _ _)), take_drop. done.
Qed.

Lemma EnumProcClass_Some os cls h r :
  cls <> [] ->
  EnumProcClass os cls h = Some r <-> r = h /\ GetClassName os h = cls.
Proof.
  intros Hcls. unfold EnumProcClass.
  destruct (weqb (GetClassName os h) cls) eqn:Hw.
  - apply weqb_true in Hw. rewrite Hw.
    rewrite decide_True by (destruct cls; simpl; [done | lia]).
    split; [intros [= <-] | intros [-> _]]; done.
  - assert (GetClassName os h <> cls) as Hne.
    { intros Heq. apply weqb_true in Heq. congruence. }
    case_decide; (split; [discriminate | intros [_ ?]; done]).
Qed.

(** X5. [GetWordWindow] and [GetPowerPointWindow] each return the first
    enumerated window whose class name is "OpusApp", respectively
    "PPTFrameClass"; the window they return is never the same one. *)
Theorem office_windows_by_class (os : OS) :
  (forall h,
      GetWordWindow os = Some h <->
        exists before after,
          EnumWindows os = before ++ h :: after
          /\ GetClassName os h = L "OpusApp"
          /\ forall h', h' ∈ before -> GetClassName os h' <> L "OpusApp")
  /\ (forall h,
        GetPowerPointWindow os = Some h <->
          exists before after,
            EnumWindows os = before ++ h :: after
            /\ GetClassName os h = L "PPTFrameClass"
            /\ forall h', h' ∈ before -> GetClassName os h' <> L "PPTFrameClass")
  /\ (forall h, GetWordWindow os = Some h -> GetPowerPointWindow os <> Some h).
Proof.
  assert (forall cls h, cls <> [] ->
            enum_until (EnumProcClass os cls) (EnumWindows os) = Some h <->
            exists before after,
              EnumWindows os = before ++ h :: after
              /\ GetClassName os h = cls
              /\ forall h', h' ∈ before -> GetClassName os h' <> cls) as Hgen.
  { intros cls h Hcls. rewrite enum_until_Some. split.
    - intros (before & h0 & after & Heq & Hcb & Hbefore).
      apply EnumProcClass_Some in Hcb as [-> Hc]; [|done].
      exists before, after. split_and!; [done..|].
      intros h' Hin Hc'. apply Hbefore in Hin.
      assert (EnumProcClass os cls h' = Some h')
        by (by apply EnumProcClass_Some). congruence.
    - intros (before & after & Heq & Hc & Hbefore).
      exists before, h, after. split_and!; [done| |].
      + by apply EnumProcClass_Some.
      + intros h' Hin.
        destruct (EnumProcClass os cls h') as [r|] eqn:He; [|done].
        apply EnumProcClass_Some in He as [_ He]; [|done].
        by apply Hbefore in Hin. }
  split_and!.
  - intros h. by apply Hgen.
  - intros h. by apply Hgen.
  - intros h Hw Hp.
    apply Hgen in Hw as (_ & _ & _ & Hw & _); [|done].
    apply Hgen in Hp as (_ & _ & _ & Hp & _); [|done].
    rewrite Hw in Hp. discriminate.
Qed.

End more_lookups.

(** ** FileUtils.cpp: what a launch records *)

Section launch_effects.

Implicit Types (m : gmap wstring TrackedWindow) (w : World).

(** The four instants at which the loop looks for the window. *)
Lemma poll_Some w hProcess h t :
  poll w hProcess = Some (h, t) ->
  t ∈ [0; 250; 500; 750]%Z /\ launched_window w hProcess t = Some h.
Proof.
  unfold poll. change (poll_fuel 0) with 4%nat.
  assert (forall fuel e, (e < maxPollTime)%Z ->
            forall h0, launched_window w hProcess e = Some h0 ->
            default None (poll_loop fuel w hProcess e) = Some (h, t) ->
            t = e /\ h0 = h) as Hfound.
  { intros fuel e He h0 Hw. rewrite (poll_loop_found _ _ _ _ h0) by done.
    simpl. intros [= -> ->]. done. }
  destruct (launched_window w hProcess 0) as [h0|] eqn:H0.
  { intros H. destruct (Hfound _ 0%Z eq_refl h0 H0 H) as [-> ->].
    split; [set_unfold; tauto | done]. }
  rewrite poll_loop_sleep by (done || reflexivity).
  destruct (launched_window w hProcess (0 + pollInterval)) as [h1|] eqn:H1.
  { intros H. destruct (Hfound _ (0 + pollInterval)%Z eq_refl h1 H1 H) as [-> ->].
    split; [set_unfold; tauto | done]. }
  rewrite poll_loop_sleep by (done || reflexivity).
  destruct (launched_window w hProcess (0 + pollInterval + pollInterval))
    as [h2|] eqn:H2.
  { intros H.
    destruct (Hfound _ (0 + pollInterval + pollInterval)%Z eq_refl h2 H2 H)
      as [-> ->].
    split; [set_unfold; tauto | done]. }
  rewrite poll_loop_sleep by (done || reflexivity).
  destruct (launched_window w hProcess
              (0 + pollInterval + pollInterval + pollInterval))
    as [h3|] eqn:H3.
  { intros H.
    destruct (Hfound _ (0 + pollInterval + pollInterval + pollInterval)%Z
                eq_refl h3 H3 H) as [-> ->].
    split; [set_unfold; tauto | done]. }
  rewrite poll_loop_sleep by (done || reflexivity).
  rewrite poll_loop_over by (by vm_compute). discriminate.
Qed.

(** X6. [LaunchFile] touches no key but [filePath]; it shows nothing when the
    shell-open call succeeded; and it either leaves the map as it was or
    stores, under [filePath], the fingerprint of a window that at one of
    the instants 0, 250, 500, 750 ms was visible and owned by the launched
    process, captured at that instant. *)
Theorem LaunchFile_effect w filePath m :
  (forall path, path <> filePath ->
                (LaunchFile w filePath m).1 !! path = m !! path)
  /\ (is_Some (ShellExecuteExW w filePath) -> (LaunchFile w filePath m).2 = [])
  /\ ((LaunchFile w filePath m).1 = m
      \/ exists hProcess t h,
          ShellExecuteExW w filePath = Some hProcess
          /\ t ∈ [0; 250; 500; 750]%Z
          /\ owned_and_visible (at_ms w t)
               (GetProcessId (at_ms w t) hProcess) h
          /\ (LaunchFile w filePath m).1
             = <[filePath := GetFingerprint (at_ms w t) h]> m).
Proof.
  unfold LaunchFile.
  destruct (ShellExecuteExW w filePath) as [hProcess|] eqn:Hshell; simpl.
  2: { split_and!; [done | intros [? ?]; done | by left]. }
  destruct (poll w hProcess) as [[h t]|] eqn:Hpoll; simpl.
  2: { split_and!; [done | done | by left]. }
  apply poll_Some in Hpoll as [Ht Hw].
  split_and!.
  - intros path Hne. by rewrite lookup_insert_ne.
  - done.
  - right. exists hProcess, t, h. split_and!; [done..| |done].
    unfold launched_window in Hw. by apply GetMainWindowHandle_owned.
Qed.

(** X7. The outcome of [LaunchFile] depends on the desktop at the instants 0,
    250, 500 and 750 ms only: two worlds that answer the shell-open call
    alike and agree at these instants give the same result. *)
Theorem LaunchFile_looks_four_times w w' filePath m :
  ShellExecuteExW w filePath = ShellExecuteExW w' filePath ->
  (forall t, t ∈ [0; 250; 500; 750]%Z -> at_ms w t = at_ms w' t) ->
  LaunchFile w filePath m = LaunchFile w' filePath m.
Proof.
  intros Hshell Hsame. unfold LaunchFile. rewrite <- Hshell.
  destruct (ShellExecuteExW w filePath) as [hProcess|]; [|done].
  assert (forall t, t ∈ [0; 250; 500; 750]%Z ->
            launched_window w hProcess t = launched_window w' hProcess t) as Hw.
  { intros t Ht. unfold launched_window. by rewrite (Hsame t Ht). }
  assert (poll w hProcess = poll w' hProcess) as Hpoll.
  { unfold poll. change (poll_fuel 0) with 4%nat.
    assert (forall (u : World) fuel e,
              poll_loop (S fuel) u hProcess e
              = if decide (e < maxPollTime)%Z
                then match launched_window u hProcess e with
                     | Some h => Some (Some (h, e))
                     | None => poll_loop fuel u hProcess (e + pollInterval)
                     end
                else Some None) as Hstep by done.
    rewrite !Hstep.
    rewrite (Hw 0%Z), (Hw (0 + pollInterval)%Z),
      (Hw (0 + pollInterval + pollInterval)%Z),
      (Hw (0 + pollInterval + pollInterval + pollInterval)%Z)
      by (set_unfold; tauto).
    rewrite !poll_loop_over by (by vm_compute). done. }
  rewrite Hpoll. destruct (poll w' hProcess) as [[h t]|] eqn:Hp; [|done].
  apply poll_Some in Hp as [Ht _]. by rewrite (Hsame t Ht).
Qed.

End launch_effects.

(** ** FileUtils.cpp: what loading does to the map *)

Section load_effects.

Implicit Types (m : gmap wstring TrackedWindow).

Lemma tracked_window_live os filePath pid h :
  tracked_window os filePath pid = Some h -> IsWindow os h = true.
Proof.
  unfold tracked_window.
  destruct (GetMainWindowHandle os pid) as [h0|] eqn:Hmain.
  - intros [= <-]. by eapply GetMainWindowHandle_enumerated.
  - destruct (rfind BACKSLASH filePath); [|done].
    apply GetWindowHandleByFileName_enumerated.
Qed.

Lemma load_line_lookup os m line path :
  load_line os m line !! path = or_else (line_value os path line) (m !! path).
Proof.
  unfold load_line, line_value.
  destruct (parse_record line) as [[filePath pid]|]; [|done].
  destruct (decide (filePath = path)) as [->|Hne];
    destruct (tracked_window os _ pid) as [h|]; simpl; try done.
  - by rewrite lookup_insert_eq.
  - by rewrite lookup_insert_ne.
Qed.

Lemma last_value_from os path lines (acc earlier : option TrackedWindow) :
  or_else (fold_left (fun acc line => or_else (line_value os path line) acc)
                     lines acc) earlier
  = or_else (last_value os path lines) (or_else acc earlier).
Proof.
  unfold last_value.
  revert acc earlier.
  induction lines as [|line lines IH]; intros acc earlier; [done|].
  cbn [fold_left].
  destruct (line_value os path line) as [v|]; cbn [or_else].
  - by rewrite (IH (Some v) earlier), (IH (Some v) (or_else acc earlier)).
  - apply IH.
Qed.

Lemma load_lines_lookup os lines m path :
  fold_left (load_line os) lines m !! path
  = or_else (last_value os path lines) (m !! path).
Proof.
  revert m. induction lines as [|line lines IH]; intros m; [done|].
  cbn [fold_left]. rewrite IH, load_line_lookup.
  unfold last_value at 2. cbn [fold_left].
  rewrite (last_value_from os path lines _ (m !! path)).
  by destruct (line_value os path line).
Qed.

(** X8. Loading keeps every entry that is not named by a line; an entry it
    changes is the fingerprint, on this desktop, of a window that exists;
    and no entry is ever removed. *)
Theorem LoadTrackingMapping_effect os file m path :
  (forall tw,
      LoadTrackingMapping os file m !! path = Some tw ->
      m !! path = Some tw
      \/ (IsWindow os (hwnd tw) = true
          /\ tw = GetFingerprint os (hwnd tw)
          /\ exists text line pid,
               file = Some text /\ line ∈ getlines text
               /\ parse_record line = Some (path, pid)))
  /\ (is_Some (m !! path) -> is_Some (LoadTrackingMapping os file m !! path)).
Proof.
  unfold LoadTrackingMapping. destruct file as [text|].
  2: { split; [intros tw; by left | done]. }
  rewrite load_lines_lookup.
  assert (forall tw, last_value os path (getlines text) = Some tw ->
            IsWindow os (hwnd tw) = true
            /\ tw = GetFingerprint os (hwnd tw)
            /\ exists line pid, line ∈ getlines text
                                /\ parse_record line = Some (path, pid))
    as Hlast.
  { unfold last_value. intros tw.
    assert (forall acc : option TrackedWindow,
              fold_left (fun acc line => or_else (line_value os path line) acc)
                        (getlines text) acc = Some tw ->
              acc = Some tw
              \/ exists line, line ∈ getlines text
                              /\ line_value os path line = Some tw) as Hfold.
    { induction (getlines text) as [|line lines IH]; intros acc; simpl.
      - by left.
      - intros H. apply IH in H as [H|(l & Hin & Hl)].
        + destruct (line_value os path line) as [v|] eqn:Hv; simpl in H.
          * right. exists line. split; [apply list_elem_of_here | congruence].
          * by left.
        + right. exists l. split; [by apply list_elem_of_further | done]. }
    intros H. apply Hfold in H as [H|(line & Hin & Hv)]; [done|].
    unfold line_value in Hv.
    destruct (parse_record line) as [[filePath pid]|] eqn:Hp; [|done].
    destruct (decide (filePath = path)) as [->|]; [|done].
    destruct (tracked_window os path pid) as [h|] eqn:Ht; [|done].
    injection Hv as <-. simpl.
    split_and!; [by eapply tracked_window_live | done | eauto]. }
  split.
  - intros tw.
    destruct (last_value os path (getlines text)) as [v|] eqn:Hv; simpl.
    + intros [= <-]. right.
      destruct (Hlast v eq_refl) as (? & ? & line & pid & ? & ?).
      split_and!; [done..|]. by exists text, line, pid.
    + by left.
  - intros [tw Hm]. rewrite Hm.
    destruct (last_value os path (getlines text)); simpl; eauto.
Qed.


End load_effects.

(** ** FileUtils.cpp: what a round trip through the tracking file keeps *)

Section round_trip_records.

Implicit Types (m : gmap wstring TrackedWindow).








End round_trip_records.

(** ** The records the store can hold *)

Section stored_records.

(** X12. Every record of a store the program can reach is the fingerprint of
    its own handle as some desktop showed it, and its class name has at
    most 255 code units. *)
Theorem stored_record_is_capture (m : gmap wstring TrackedWindow) :
  reachable m ->
  forall path tw,
    m !! path = Some tw ->
    (exists os, tw = GetFingerprint os (hwnd tw))
    /\ (length (className tw) <= 255)%nat.
Proof.
  intros Hreach path tw Hl.
  destruct (reachable_captured m Hreach path tw Hl) as (os & h & ->).
  split; [by exists os|]. simpl. unfold GetClassName.
  rewrite length_take. lia.
Qed.

End stored_records.

(** ** MainWindow.cpp: the timer and the activation on the store *)

Section handlers_on_the_store.

Implicit Types (m : gmap wstring TrackedWindow) (stored : TrackedWindow).

Lemma TimerRow_cases os fileName m :
  (exists stored,
      m !! row_path fileName = Some stored
      /\ IsWindow os (hwnd stored) = true
      /\ (TimerRow os fileName m).1.1 = Some (hwnd stored)
      /\ (TimerRow os fileName m).1.2
         = <[row_path fileName :=
               if CompareStableAttributes stored (GetFingerprint os (hwnd stored))
               then stored else GetFingerprint os (hwnd stored)]> m)
  \/ ((forall stored, m !! row_path fileName = Some stored ->
                      IsWindow os (hwnd stored) = false)
      /\ (TimerRow os fileName m).1.1 = GetWindowHandleByFileName os fileName
      /\ (TimerRow os fileName m).1.2 = m).
Proof.
  destruct (m !! row_path fileName) as [stored|] eqn:Hm.
  - destruct (IsWindow os (hwnd stored)) eqn:Hlive.
    + left. exists stored. split_and!; [done..| |].
      * destruct (CompareStableAttributes stored
                    (GetFingerprint os (hwnd stored))) eqn:Hsame.
        -- by rewrite (TimerRow_stable_match os fileName m stored).
        -- by rewrite (TimerRow_stable_mismatch os fileName m stored).
      * destruct (CompareStableAttributes stored
                    (GetFingerprint os (hwnd stored))) eqn:Hsame.
        -- rewrite (TimerRow_stable_match os fileName m stored) by done.
           simpl. by rewrite insert_id.
        -- by rewrite (TimerRow_stable_mismatch os fileName m stored).
    + right. unfold TimerRow, bind. cbv zeta.
      rewrite (live_entry_dead os _ m stored Hm Hlive).
      split_and!; [|done..]. intros s [= <-]. done.
  - right. unfold TimerRow, bind. cbv zeta.
    rewrite (live_entry_absent os _ m Hm).
    split_and!; [|done..]. intros s [=].
Qed.

Lemma TimerRow_dom os fileName m : dom (TimerRow os fileName m).1.2 = dom m.
Proof.
  destruct (TimerRow_cases os fileName m)
    as [(stored & Hm & _ & _ & Hstore)|(_ & _ & Hstore)]; rewrite Hstore;
    [|done].
  rewrite dom_insert_L. apply elem_of_dom_2 in Hm.
  apply subseteq_union_1_L. by apply singleton_subseteq_l.
Qed.

Lemma TimerRows_dom os rows m : dom (TimerRows os rows m).1.2 = dom m.
Proof.
  revert m. induction rows as [|fileName rows IH]; intros m; simpl; [done|].
  unfold bind.
  pose proof (TimerRow_dom os fileName m) as Hdom.
  destruct (TimerRow os fileName m) as [[r m1] t1]. simpl in Hdom.
  pose proof (IH m1) as Hrest.
  destruct (TimerRows os rows m1) as [[rs m2] t2]. simpl in *. congruence.
Qed.

(** X13. The timer never adds or removes a key, and a row touches no key but
    its own; when the stored handle is a live window the row reports that
    handle, whatever [CompareStableAttributes] answers; and running the
    row again on the same desktop changes nothing more. *)
Theorem TimerRow_effect os fileName m :
  (forall fileRows cliRows, dom (OnTimer os fileRows cliRows m).1.2 = dom m)
  /\ (forall path, path <> row_path fileName ->
                   (TimerRow os fileName m).1.2 !! path = m !! path)
  /\ (forall stored,
        m !! row_path fileName = Some stored ->
        IsWindow os (hwnd stored) = true ->
        (TimerRow os fileName m).1.1 = Some (hwnd stored))
  /\ (TimerRow os fileName (TimerRow os fileName m).1.2).1.2
     = (TimerRow os fileName m).1.2.
Proof.
  split; [intros fileRows cliRows; apply TimerRows_dom|].
  destruct (TimerRow_cases os fileName m)
    as [(stored & Hm & Hlive & Hres & Hstore)|(Hdead & Hres & Hstore)].
  - split_and!.
    + intros path Hne. by rewrite Hstore, lookup_insert_ne.
    + intros s Hs _. by simplify_eq.
    + set (m' := (TimerRow os fileName m).1.2) in *.
      set (kept := if CompareStableAttributes stored
                        (GetFingerprint os (hwnd stored))
                   then stored else GetFingerprint os (hwnd stored)) in *.
      assert (m' !! row_path fileName = Some kept) as Hm'
        by (by rewrite Hstore, lookup_insert_eq).
      assert (hwnd kept = hwnd stored) as Hh
        by (unfold kept; by destruct (CompareStableAttributes _ _)).
      assert (CompareStableAttributes kept (GetFingerprint os (hwnd kept))
              = true) as Hsame.
      { rewrite Hh. unfold kept.
        destruct (CompareStableAttributes stored _) eqn:Hs; [done|].
        apply CompareStableAttributes_refl. }
      rewrite (TimerRow_stable_match os fileName m' kept); [done..| |done].
      by rewrite Hh.
  - split_and!.
    + intros path _. by rewrite Hstore.
    + intros s Hs Hl. apply Hdead in Hs. congruence.
    + by rewrite !Hstore.
Qed.

(** What the normal logic amounts to, case by case. *)
Lemma ActivateOrLaunch_cases os w filePath fileName m :
  (exists stored,
      m !! filePath = Some stored /\ IsWindow os (hwnd stored) = true
      /\ ActivateOrLaunch os w filePath fileName m
         = (tt,
            (if CompareStableAttributes stored (GetFingerprint os (hwnd stored))
             then m else <[filePath := GetFingerprint os (hwnd stored)]> m),
            [CallIsWindow (hwnd stored); CallGetFingerprint (hwnd stored);
             CallCompareStableAttributes stored
               (GetFingerprint os (hwnd stored));
             CallActivateTrackedWindow (hwnd stored)]))
  \/ (exists pre,
        (pre = [] \/ exists stored, m !! filePath = Some stored
                                    /\ IsWindow os (hwnd stored) = false
                                    /\ pre = [CallIsWindow (hwnd stored)])
        /\ ((exists h,
               GetWindowHandleByFileName os fileName = Some h
               /\ ActivateOrLaunch os w filePath fileName m
                  = (tt, <[filePath := GetFingerprint os h]> m,
                     pre ++ [CallGetWindowHandleByFileName fileName;
                             CallGetFingerprint h;
                             CallActivateTrackedWindow h]))
            \/ (GetWindowHandleByFileName os fileName = None
                /\ ActivateOrLaunch os w filePath fileName m
                   = (tt, (LaunchFile w filePath m).1,
                      pre ++ [CallGetWindowHandleByFileName fileName;
                              CallLaunchFile filePath])))).
Proof.
  unfold ActivateOrLaunch, live_entry, bind, map_find, doIsWindow,
    doGetFingerprint, doCompareStableAttributes,
    doGetWindowHandleByFileName, doLaunchFile, ActivateTrackedWindow,
    map_assign, called, ret.
  destruct (m !! filePath) as [stored|] eqn:Hm; simpl.
  - destruct (IsWindow os (hwnd stored)) eqn:Hlive; simpl.
    + left. exists stored. split_and!; [done..|].
      by destruct (CompareStableAttributes _ _).
    + right. exists [CallIsWindow (hwnd stored)]. split; [right; eauto|].
      destruct (GetWindowHandleByFileName os fileName) as [h|]; simpl;
        [left; eauto | right; eauto].
  - right. exists []. split; [by left|].
    destruct (GetWindowHandleByFileName os fileName) as [h|]; simpl;
      [left; eauto | right; eauto].
Qed.

(** X14. The normal logic either calls [LaunchFile] (when no live window is
    tracked and the title search finds none), or activates a window that
    exists and that the store tracks for the file afterwards. It touches
    no other key unless it launches. *)
Theorem ActivateOrLaunch_outcome os w filePath fileName m :
  let m' := (ActivateOrLaunch os w filePath fileName m).1.2 in
  let calls := (ActivateOrLaunch os w filePath fileName m).2 in
  (CallLaunchFile filePath ∈ calls
   /\ GetWindowHandleByFileName os fileName = None
   /\ m' = (LaunchFile w filePath m).1)
  \/ (exists tw,
        m' !! filePath = Some tw
        /\ IsWindow os (hwnd tw) = true
        /\ last calls = Some (CallActivateTrackedWindow (hwnd tw))
        /\ forall path, path <> filePath -> m' !! path = m !! path).
Proof.
  intros m' calls. unfold m', calls. clear m' calls.
  destruct (ActivateOrLaunch_cases os w filePath fileName m)
    as [(stored & Hm & Hlive & ->)
       |(pre & Hpre & [(h & Hfound & ->)|(Hnone & ->)])]; simpl.
  - right.
    destruct (CompareStableAttributes stored _) eqn:Hsame.
    + exists stored. split_and!; done.
    + exists (GetFingerprint os (hwnd stored)). split_and!; [|done..|].
      * apply lookup_insert_eq.
      * intros path Hne. by rewrite lookup_insert_ne.
  - right. exists (GetFingerprint os h). split_and!.
    + apply lookup_insert_eq.
    + by apply GetWindowHandleByFileName_enumerated in Hfound.
    + by rewrite last_app.
    + intros path Hne. by rewrite lookup_insert_ne.
  - left. split_and!; [|done..].
    apply elem_of_app. right. set_unfold. tauto.
Qed.


End handlers_on_the_store.

(** ** MainWindow.cpp: trimming the text of a row or of the edit control *)

Section trimming.

Lemma find_first_not_of_blank_None s :
  find_first_not_of_blank s = None <-> Forall (fun c => is_blank c = true) s.
Proof.
  induction s as [|c s IH]; simpl; [by split; [constructor|]|].
  destruct (is_blank c) eqn:Hc.
  - rewrite fmap_None, IH. split; [by constructor|]. by intros [_ ?]%Forall_cons.
  - split; [done|]. intros [? _]%Forall_cons. congruence.
Qed.

Lemma find_first_not_of_blank_Some s i :
  find_first_not_of_blank s = Some i ->
  exists pre c r,
    s = pre ++ c :: r /\ length pre = i
    /\ Forall (fun c => is_blank c = true) pre /\ is_blank c = false.
Proof.
  revert i. induction s as [|c s IH]; intros i; simpl; [done|].
  destruct (is_blank c) eqn:Hc.
  - destruct (find_first_not_of_blank s) as [i'|]; [|done].
    intros [= <-]. destruct (IH i' eq_refl) as (pre & c' & r & -> & <- & Hpre & Hc').
    exists (c :: pre), c', r. split_and!; [done..| |done]. by constructor.
  - intros [= <-]. by exists [], c, s.
Qed.

Lemma find_last_not_of_blank_None s :
  find_last_not_of_blank s = None <-> Forall (fun c => is_blank c = true) s.
Proof.
  induction s as [|c s IH]; simpl; [by split; [constructor|]|].
  destruct (find_last_not_of_blank s) as [j|].
  - split; [done|]. intros [_ Hs]%Forall_cons. apply IH in Hs. done.
  - destruct (is_blank c) eqn:Hc.
    + split; [|done]. intros _. constructor; [done|]. by apply IH.
    + split; [done|]. intros [? _]%Forall_cons. congruence.
Qed.

Lemma find_last_not_of_blank_Some s j :
  find_last_not_of_blank s = Some j ->
  exists pre c post,
    s = pre ++ c :: post /\ length pre = j
    /\ Forall (fun c => is_blank c = true) post /\ is_blank c = false.
Proof.
  revert j. induction s as [|c s IH]; intros j; simpl; [done|].
  destruct (find_last_not_of_blank s) as [j'|] eqn:Hs.
  - intros [= <-].
    destruct (IH j' eq_refl) as (pre & c' & post & -> & <- & Hpost & Hc').
    by exists (c :: pre), c', post.
  - destruct (is_blank c) eqn:Hc; [done|]. intros [= <-].
    exists [], c, s. split_and!; [done..| |done].
    by apply find_last_not_of_blank_None.
Qed.

Lemma find_last_not_of_blank_end k c :
  is_blank c = false -> find_last_not_of_blank (k ++ [c]) = Some (length k).
Proof.
  intros Hc. induction k as [|x k IH]; simpl; [by rewrite Hc|]. by rewrite IH.
Qed.

(** What trimming returns: nothing for a text of blanks, and otherwise a
    text [c :: k'] = [k ++ [c']] between the first and the last code unit
    that is no blank. *)
Lemma trim_input_cases s :
  (Forall (fun c => is_blank c = true) s /\ trim_input s = []
   /\ find_first_not_of_blank s = None /\ find_last_not_of_blank s = None)
  \/ exists pre k c' post,
      s = pre ++ (k ++ [c']) ++ post
      /\ Forall (fun c => is_blank c = true) pre
      /\ Forall (fun c => is_blank c = true) post
      /\ is_blank c' = false
      /\ (forall c, head (k ++ [c']) = Some c -> is_blank c = false)
      /\ trim_input s = k ++ [c']
      /\ is_Some (find_first_not_of_blank s)
      /\ is_Some (find_last_not_of_blank s).
Proof.
  unfold trim_input.
  destruct (find_first_not_of_blank s) as [i|] eqn:Hfirst.
  2: { left. apply find_first_not_of_blank_None in Hfirst.
       split_and!; [done..|]. by apply find_last_not_of_blank_None. }
  destruct (find_last_not_of_blank s) as [j|] eqn:Hlast.
  2: { apply find_last_not_of_blank_None, find_first_not_of_blank_None in Hlast.
       congruence. }
  right.
  apply find_first_not_of_blank_Some in Hfirst
    as (pre & c & r & Hs & Hi & Hpre & Hc).
  apply find_last_not_of_blank_Some in Hlast
    as (pre' & c' & post & Hs' & Hj & Hpost & Hc').
  assert (exists k, pre' = pre ++ k /\ c :: r = k ++ c' :: post) as (k & -> & Hk).
  { rewrite Hs in Hs'. apply app_eq_inv in Hs' as [(k & Hp & Hr)|(k & Hp & Hr)].
    - destruct k as [|y k].
      + exists []. rewrite app_nil_r in Hp. simplify_eq/=.
        by rewrite app_nil_r.
      + exfalso. simplify_eq/=.
        apply Forall_app in Hpre as [_ Hpre].
        apply Forall_cons in Hpre as [Hy _]. congruence.
    - eauto. }
  exists pre, k, c', post. subst i j.
  assert (s = pre ++ (k ++ [c']) ++ post) as Hdec.
  { rewrite Hs, Hk. by rewrite <- !app_assoc. }
  split_and!; [done..| | |eauto|eauto].
  - intros x Hx. destruct k as [|y k]; simplify_eq/=; done.
  - unfold substr. rewrite Hs, drop_app_length, Hk.
    rewrite length_app.
    replace (length pre + length k - length pre + 1)%nat
      with (length (k ++ [c'])) by (rewrite length_app; simpl; lia).
    change (c' :: post) with ([c'] ++ post). rewrite app_assoc.
    apply take_app_length.
Qed.

(** X16. Trimming the text of the CLI edit control removes blanks (spaces and
    tabs) at both ends and nothing else: what is left neither starts nor
    ends with a blank, is empty exactly for a text of blanks, and trimming
    it again changes nothing. The double-click handlers trim likewise,
    except that a row text of blanks only is kept as it is. *)
Theorem trim_input_spec (s : wstring) :
  (exists pre post,
      s = pre ++ trim_input s ++ post
      /\ Forall (fun c => is_blank c = true) pre
      /\ Forall (fun c => is_blank c = true) post)
  /\ (forall c, head (trim_input s) = Some c \/ last (trim_input s) = Some c ->
                is_blank c = false)
  /\ (trim_input s = [] <-> Forall (fun c => is_blank c = true) s)
  /\ trim_input (trim_input s) = trim_input s
  /\ trim_row s = if bool_decide (trim_input s = []) then s else trim_input s.
Proof.
  destruct (trim_input_cases s)
    as [(Hall & Ht & Hf & Hl)
       |(pre & k & c' & post & Hs & Hpre & Hpost & Hc' & Hhead & Ht & Hf & Hl)].
  - rewrite Ht. split_and!.
    + exists s, []. by rewrite app_nil_r.
    + intros c [?|?]; done.
    + done.
    + done.
    + unfold trim_row. by rewrite Hf.
  - rewrite Ht. split_and!.
    + by exists pre, post.
    + intros c [Hc|Hc]; [by apply Hhead|].
      rewrite last_snoc in Hc. by simplify_eq.
    + split; [by destruct k|]. intros Hall. exfalso.
      rewrite Hs in Hall. apply Forall_app in Hall as [_ Hall].
      apply Forall_app in Hall as [Hall _].
      apply Forall_app in Hall as [_ Hall].
      apply Forall_cons in Hall as [? _]. congruence.
    + unfold trim_input.
      rewrite find_last_not_of_blank_end by done.
      destruct (k ++ [c']) as [|c t] eqn:Hkc; [by destruct k|].
      simpl. rewrite (Hhead c eq_refl). unfold substr. simpl drop.
      rewrite <- Hkc.
      replace (length k - 0 + 1)%nat with (length (k ++ [c']))
        by (rewrite length_app; simpl; lia).
      apply firstn_all.
    + rewrite bool_decide_eq_false_2 by (by destruct k).
      unfold trim_row, trim_input in *.
      destruct Hf as [i Hf], Hl as [j Hl]. by rewrite Hf, Hl in *.
Qed.

End trimming.

(** ** MainWindow.cpp: ".url" files *)

Section url_files.

Implicit Types (m : gmap wstring TrackedWindow).

Lemma starts_with_length p s : starts_with p s = true -> (length p <= length s)%nat.
Proof.
  intros (r & ->)%starts_with_spec. rewrite length_app. lia.
Qed.

Lemma rfind_str_occurs needle hay i :
  rfind_str needle hay = Some i ->
  starts_with needle (drop i hay) = true /\ (i <= length hay)%nat.
Proof.
  revert i. induction hay as [|c t IH]; intros i; simpl.
  - destruct (starts_with needle []) eqn:Hs; [|done]. intros [= <-]. done.
  - destruct (rfind_str needle t) as [i'|].
    + intros [= <-]. destruct (IH i' eq_refl). simpl. split; [done|lia].
    + destruct (starts_with needle (c :: t)) eqn:Hs; [|done].
      intros [= <-]. simpl. split; [done|lia].
Qed.

Lemma rfind_str_last needle hay i :
  (i <= length hay)%nat ->
  starts_with needle (drop i hay) = true ->
  exists j, (i <= j)%nat /\ rfind_str needle hay = Some j.
Proof.
  revert i. induction hay as [|c t IH]; intros i Hi Hs.
  - simpl in Hi. assert (i = 0%nat) as -> by lia. simpl in *.
    rewrite Hs. by exists 0%nat.
  - destruct i as [|i]; simpl in *.
    + destruct (rfind_str needle t) as [j|].
      * exists (S j). split; [lia|done].
      * rewrite Hs. by exists 0%nat.
    + destruct (IH i ltac:(lia) Hs) as (j & Hj & ->).
      exists (S j). split; [lia|done].
Qed.

Lemma rfind_str_suffix needle hay :
  rfind_str needle hay = Some (length hay - length needle)%nat
  /\ (length needle <= length hay)%nat
  <-> exists base, hay = base ++ needle.
Proof.
  split.
  - intros [Hr Hlen]. apply rfind_str_occurs in Hr as [Hs _].
    apply starts_with_spec in Hs as [r Hs].
    assert (r = []) as ->.
    { apply (f_equal length) in Hs. rewrite length_drop, length_app in Hs.
      apply nil_length_inv. lia. }
    exists (take (length hay - length needle) hay).
    rewrite app_nil_r in Hs.
    rewrite <- (take_drop (length hay - length needle) hay) at 1.
    f_equal. exact Hs.
  - intros [base ->]. rewrite length_app.
    replace (length base + length needle - length needle)%nat
      with (length base) by lia.
    split; [|lia].
    destruct (rfind_str_last needle (base ++ needle) (length base)) as (j & Hj & Hr).
    + rewrite length_app. lia.
    + rewrite drop_app_length. apply starts_with_spec. exists [].
      by rewrite app_nil_r.
    + rewrite Hr. f_equal.
      apply rfind_str_occurs in Hr as [Hs Hle].
      apply starts_with_length in Hs.
      rewrite length_drop, length_app in Hs. rewrite length_app in Hle. lia.
Qed.

Lemma is_url_path_suffix filePath :
  is_url_path filePath = true <-> exists base, to_lower filePath = base ++ L ".url".
Proof.
  unfold is_url_path. rewrite andb_true_iff, !bool_decide_eq_true.
  rewrite <- rfind_str_suffix. change (length (L ".url")) with 4%nat. tauto.
Qed.

Lemma find_at_start needle hay :
  WStr.find needle hay = Some 0%nat <-> exists r, hay = needle ++ r.
Proof.
  rewrite <- starts_with_spec.
  destruct hay as [|c t]; simpl; destruct (starts_with needle _); try done.
  destruct (WStr.find needle t); done.
Qed.

Lemma read_url_first lines before url after :
  lines = before ++ (L "URL=" ++ url) :: after ->
  (forall l, l ∈ before -> forall r, l <> L "URL=" ++ r) ->
  read_url lines = url.
Proof.
  intros -> Hbefore. induction before as [|l before IH].
  - rewrite app_nil_l. cbn [read_url].
    rewrite bool_decide_eq_true_2 by (apply find_at_start; eauto).
    unfold substr_from. apply (drop_app_length (L "URL=")).
  - rewrite <- app_comm_cons. cbn [read_url].
    rewrite bool_decide_eq_false_2.
    + apply IH. intros l' Hin. apply Hbefore. by apply list_elem_of_further.
    + intros [r Hr]%find_at_start.
      by apply (Hbefore l (list_elem_of_here _ _) r).
Qed.

Lemma read_url_none lines :
  (forall l, l ∈ lines -> forall r, l <> L "URL=" ++ r) -> read_url lines = [].
Proof.
  induction lines as [|l lines IH]; intros Hno; [done|]. cbn [read_url].
  rewrite bool_decide_eq_false_2.
  - apply IH. intros l' Hin. apply Hno. by apply list_elem_of_further.
  - intros [r Hr]%find_at_start. by apply (Hno l (list_elem_of_here _ _) r).
Qed.

(** X17. The ".url" test accepts exactly the paths that, lower-cased, end in
    ".url"; and the URL read from such a file is what follows "URL=" on
    the first line that starts with it (written so, in capitals), and
    empty when no line does. *)
Theorem url_file_recognised_and_read :
  (forall filePath,
      is_url_path filePath = true <->
        exists base, to_lower filePath = base ++ L ".url")
  /\ (forall lines before url after,
        lines = before ++ (L "URL=" ++ url) :: after ->
        (forall l, l ∈ before -> forall r, l <> L "URL=" ++ r) ->
        read_url lines = url)
  /\ (forall lines,
        (forall l, l ∈ lines -> forall r, l <> L "URL=" ++ r) ->
        read_url lines = []).
Proof.
  split_and!.
  - apply is_url_path_suffix.
  - apply read_url_first.
  - apply read_url_none.
Qed.

(** X18. A double-click on a row naming a ".url" file whose first "URL=" line
    gives a URL shows that URL in the browser panel and does nothing else:
    the store is left as it is and no tracking call is made. When the file
    cannot be opened the error is shown, and the store is left as it is
    too. *)
Theorem url_row_bypasses_tracking open_file os w rowText m base :
  rowText <> [] ->
  to_lower (row_path (trim_row rowText)) = base ++ L ".url" ->
  (open_file (row_path (trim_row rowText)) = None ->
   OnRowDoubleClick open_file os w rowText m
   = (ShowedError (MessageBox (L "Failed to open .url file.") (L "Error")),
      m, []))
  /\ (forall text before url after,
        open_file (row_path (trim_row rowText)) = Some text ->
        getlines text = before ++ (L "URL=" ++ url) :: after ->
        (forall l, l ∈ before -> forall r, l <> L "URL=" ++ r) ->
        url <> [] ->
        OnRowDoubleClick open_file os w rowText m = (ShowedBrowser url, m, [])).
Proof.
  intros Hrow Hurl.
  assert (is_url_path (row_path (trim_row rowText)) = true) as Hisurl
    by (apply is_url_path_suffix; eauto).
  unfold OnRowDoubleClick, url_or_normal.
  rewrite bool_decide_eq_false_2 by done. rewrite Hisurl. split.
  - intros Hopen. by rewrite Hopen.
  - intros text before url after Hopen Hlines Hbefore Hne.
    rewrite Hopen. rewrite (read_url_first _ before url after) by done.
    by rewrite bool_decide_eq_false_2.
Qed.


End url_files.

(** ** MainWindow.cpp: filtering and completing in the CLI *)

Section cli_completion.

Lemma to_lower_take n s : to_lower (take n s) = take n (to_lower s).
Proof. unfold to_lower. apply fmap_take. Qed.

Lemma to_lower_length s : length (to_lower s) = length s.
Proof. unfold to_lower. apply length_map. Qed.

Lemma common_len_agree a b :
  take (common_len a b) (to_lower a) = take (common_len a b) (to_lower b).
Proof.
  revert b. induction a as [|x a IH]; intros [|y b]; simpl; try done.
  destruct (N.eqb_spec (towlower x) (towlower y)) as [Heq|]; [|done].
  simpl. by rewrite Heq, IH.
Qed.

Lemma common_len_max a b q :
  q `prefix_of` to_lower a -> q `prefix_of` to_lower b ->
  (length q <= common_len a b)%nat.
Proof.
  revert a b. induction q as [|c q IH]; intros a b [ra Ha] [rb Hb]; simpl;
    [lia|].
  destruct a as [|x a], b as [|y b]; try done.
  simpl in Ha, Hb. injection Ha as Hx Ha. injection Hb as Hy Hb.
  simpl. rewrite Hx, Hy, N.eqb_refl. apply le_n_S.
  apply IH; eexists; done.
Qed.

Lemma prefix_to_lower p s : p `prefix_of` s -> to_lower p `prefix_of` to_lower s.
Proof. intros [r ->]. exists (to_lower r). apply to_lower_app. Qed.

Lemma prefix_take_ge {A} (q s : list A) n :
  q `prefix_of` s -> (length q <= n)%nat -> q `prefix_of` take n s.
Proof.
  intros [r ->] Hn. exists (take (n - length q) r).
  by rewrite take_app_ge.
Qed.

Lemma common_prefix_cons first row others :
  common_prefix first (row :: others)
  = common_prefix (take (common_len first row) first) others.
Proof. done. Qed.

Lemma common_prefix_prefix first others :
  common_prefix first others `prefix_of` first.
Proof.
  revert first. induction others as [|row others IH]; intros first; [done|].
  rewrite common_prefix_cons. etrans; [apply IH|]. apply prefix_take.
Qed.

Lemma common_prefix_rows first others row :
  row ∈ others -> to_lower (common_prefix first others) `prefix_of` to_lower row.
Proof.
  revert first. induction others as [|r others IH]; intros first Hin.
  - by apply elem_of_nil in Hin.
  - apply elem_of_cons in Hin as [->|Hin].
    + rewrite common_prefix_cons.
      etrans; [apply prefix_to_lower, common_prefix_prefix|].
      rewrite to_lower_take, common_len_agree. apply prefix_take.
    + rewrite common_prefix_cons. by apply IH.
Qed.

Lemma common_prefix_max first others q :
  q `prefix_of` to_lower first ->
  (forall row, row ∈ others -> q `prefix_of` to_lower row) ->
  q `prefix_of` to_lower (common_prefix first others).
Proof.
  revert first. induction others as [|r others IH]; intros first Hq Hrows;
    [done|].
  rewrite common_prefix_cons. apply IH.
  - rewrite to_lower_take. apply prefix_take_ge; [done|].
    apply common_len_max; [done|]. apply Hrows, list_elem_of_here.
  - intros row Hin. by apply Hrows, list_elem_of_further.
Qed.

(** X20. VK_TAB: the common prefix computed over the rows of the CLI list view
    is a prefix of the first row, letter case included; up to letter case
    it starts every other row; and it is the longest such text: whatever
    starts the first row and every other row, up to letter case, starts
    the common prefix. *)
Theorem common_prefix_longest first others :
  common_prefix first others `prefix_of` first
  /\ (forall row, row ∈ others ->
        to_lower (common_prefix first others) `prefix_of` to_lower row)
  /\ (forall q,
        q `prefix_of` to_lower first ->
        (forall row, row ∈ others -> q `prefix_of` to_lower row) ->
        q `prefix_of` to_lower (common_prefix first others)).
Proof.
  split; [apply common_prefix_prefix|]. split.
  - intros row. apply common_prefix_rows.
  - intros q. apply common_prefix_max.
Qed.

Lemma filter_row_test filter fileName :
  bool_decide (to_lower filter = [])
  || bool_decide (WStr.find (to_lower filter) (to_lower fileName) = Some 0%nat)
  = true
  <-> to_lower filter `prefix_of` to_lower fileName.
Proof.
  rewrite orb_true_iff, !bool_decide_eq_true, find_at_start. split.
  - intros [->|H]; [apply prefix_nil|done].
  - intros H. by right.
Qed.

Lemma FilterCLIListView_elem files filter row :
  row ∈ FilterCLIListView files filter
  <-> row ∈ files /\ to_lower filter `prefix_of` to_lower row.
Proof.
  unfold FilterCLIListView.
  rewrite !list_elem_of_In, filter_In. cbv zeta. by rewrite filter_row_test.
Qed.

(** X21. FilterCLIListView shows exactly the files whose name starts with the
    filter up to letter case (all of them for an empty filter), in the
    order the directory gives them. *)
Theorem FilterCLIListView_spec files filter :
  (forall row,
      row ∈ FilterCLIListView files filter
      <-> row ∈ files /\ to_lower filter `prefix_of` to_lower row)
  /\ FilterCLIListView files filter `sublist_of` files
  /\ FilterCLIListView files [] = files.
Proof.
  split; [intros row; apply FilterCLIListView_elem|]. split.
  - unfold FilterCLIListView. induction files as [|f files IH]; [done|].
    cbn [List.filter]. destruct (_ || _); by constructor.
  - unfold FilterCLIListView. induction files as [|f files IH]; [done|].
    cbn [List.filter]. rewrite bool_decide_eq_true_2 by done. cbn [orb].
    f_equal. apply IH.
Qed.


End cli_completion.

(** ** WindowMonitor.cpp and the Window Monitoring list view *)

Section window_monitoring.

Lemma EnumWindowsCallback_eq sh h :
  WindowMonitor.EnumWindowsCallback sh h
  = if visible_and_titled (WindowMonitor.sh_os sh) h
    then Some
           (WindowMonitor.mkWindowInfo h
              (GetWindowText (WindowMonitor.sh_os sh) h)
              (GetWindowRect (WindowMonitor.sh_os sh) h)
              (WindowMonitor.GetWindowState sh h)
              (GetWindowThreadProcessId (WindowMonitor.sh_os sh) h)
              (WindowMonitor.GetProcessName sh
                 (GetWindowThreadProcessId (WindowMonitor.sh_os sh) h))
              (bool_decide (Some h = WindowMonitor.sh_GetForegroundWindow sh))
              (GetClassName (WindowMonitor.sh_os sh) h))
    else None.
Proof.
  unfold WindowMonitor.EnumWindowsCallback, visible_and_titled,
    GetWindowTextLength.
  destruct (IsWindowVisible _ h); [|done]. cbn [negb andb].
  case_decide as Hlen.
  - apply length_zero_iff_nil in Hlen. by rewrite bool_decide_eq_true_2.
  - by case_bool_decide.
Qed.

Lemma GetProcessName_length sh pid :
  (length (WindowMonitor.GetProcessName sh pid) < WindowMonitor.MAX_PATH)%nat.
Proof.
  unfold WindowMonitor.GetProcessName, WindowMonitor.MAX_PATH.
  destruct (WindowMonitor.sh_OpenProcess sh pid) as [hp|]; [|simpl; lia].
  destruct (WindowMonitor.sh_GetModuleFileNameEx sh hp) as [name|];
    [|simpl; lia].
  rewrite length_take. lia.
Qed.

Lemma EnumerateWindows_elem sh info :
  info ∈ WindowMonitor.EnumerateWindows sh ->
  exists h,
    h ∈ EnumWindows (WindowMonitor.sh_os sh)
    /\ WindowMonitor.EnumWindowsCallback sh h = Some info.
Proof.
  unfold WindowMonitor.EnumerateWindows. intros Hin.
  apply list_elem_of_omap in Hin. naive_solver.
Qed.

(** X23. EnumerateWindows lists, in the order of the enumeration, exactly the
    windows that are visible and have a title; and every entry agrees
    with the fingerprint GetFingerprint takes of the same window on the
    title, the rectangle and the class name, carries the process id of
    the window's thread, a process name that fits the buffer of MAX_PATH
    code units, and the focus flag of the foreground window. *)
Theorem EnumerateWindows_visible_titled sh :
  WindowMonitor.hwnd <$> WindowMonitor.EnumerateWindows sh
  = List.filter (visible_and_titled (WindowMonitor.sh_os sh))
      (EnumWindows (WindowMonitor.sh_os sh))
  /\ Forall
       (fun info =>
          let fp := GetFingerprint (WindowMonitor.sh_os sh)
                      (WindowMonitor.hwnd info) in
          WindowMonitor.title info = windowTitle fp
          /\ WindowMonitor.title info <> []
          /\ WindowMonitor.rect info = rect fp
          /\ WindowMonitor.className info = className fp
          /\ WindowMonitor.processId info
             = GetWindowThreadProcessId (WindowMonitor.sh_os sh)
                 (WindowMonitor.hwnd info)
          /\ (length (WindowMonitor.processName info)
              < WindowMonitor.MAX_PATH)%nat
          /\ WindowMonitor.isFocused info
             = bool_decide (Some (WindowMonitor.hwnd info)
                            = WindowMonitor.sh_GetForegroundWindow sh))
       (WindowMonitor.EnumerateWindows sh).
Proof.
  split.
  - unfold WindowMonitor.EnumerateWindows.
    induction (EnumWindows (WindowMonitor.sh_os sh)) as [|h hs IH]; [done|].
    cbn [omap list_omap List.filter]. rewrite EnumWindowsCallback_eq.
    destruct (visible_and_titled _ h); [|done].
    rewrite fmap_cons. by f_equal.
  - apply Forall_forall. intros info (h & _ & Hcb)%EnumerateWindows_elem.
    rewrite EnumWindowsCallback_eq in Hcb.
    destruct (visible_and_titled _ h) eqn:Hvt; [|done].
    injection Hcb as <-. cbn.
    apply andb_true_iff in Hvt as [_ Ht].
    apply negb_true_iff, bool_decide_eq_false in Ht.
    split_and!; try done.
    + unfold GetWindowTextLength. rewrite decide_True; [done|].
      destruct (GetWindowText _ h); [done|simpl; lia].
    + apply GetProcessName_length.
Qed.

(** X24. The state column of the Window Monitoring list view, written from
    the state the enumeration stored, shows for every listed window the
    text GetStateString gives for its handle on the same desktop. *)
Theorem monitor_state_as_GetStateString sh :
  Forall
    (fun info =>
       monitor_state_string sh info
       = GetStateString sh (WindowMonitor.hwnd info))
    (WindowMonitor.EnumerateWindows sh).
Proof.
  apply Forall_forall. intros info (h & _ & Hcb)%EnumerateWindows_elem.
  rewrite EnumWindowsCallback_eq in Hcb.
  destruct (visible_and_titled _ h); [|done]. injection Hcb as <-.
  unfold monitor_state_string, GetStateString, WindowMonitor.GetWindowState.
  cbn. destruct (WindowMonitor.sh_showCmd sh h) as [showCmd|]; [|done].
  destruct (showCmd =? _)%Z; [done|]. by destruct (showCmd =? _)%Z.
Qed.

Lemma entries_differ_false a b :
  entries_differ a b = false
  <-> WindowMonitor.title a = WindowMonitor.title b
      /\ WindowMonitor.processName a = WindowMonitor.processName b
      /\ WindowMonitor.state a = WindowMonitor.state b
      /\ WindowMonitor.className a = WindowMonitor.className b
      /\ WindowMonitor.rect a = WindowMonitor.rect b.
Proof.
  unfold entries_differ.
  rewrite !orb_false_iff, !negb_false_iff, !weqb_true, bool_decide_eq_true,
    !Z.eqb_eq.
  destruct (WindowMonitor.rect a), (WindowMonitor.rect b). cbn.
  split.
  - intros (((((((? & ?) & ?) & ?) & ?) & ?) & ?) & ?). split_and!; congruence.
  - intros (? & ? & ? & ? & [= ? ? ? ?]). split_and!; done.
Qed.

Lemma WindowListsEqual_Forall2 a b :
  WindowListsEqual a b = true
  <-> Forall2 (fun x y => entries_differ x y = false) a b.
Proof.
  unfold WindowListsEqual. split.
  - destruct (length a =? length b)%nat eqn:Hlen; [|done]. cbn [negb].
    apply Nat.eqb_eq in Hlen. revert b Hlen.
    induction a as [|x a IH]; intros [|y b] Hlen Hagree; try done.
    cbn [lists_agree] in Hagree.
    destruct (entries_differ x y) eqn:Hd; [done|].
    constructor; [done|]. apply IH; [simpl in Hlen; lia | done].
  - intros H. rewrite (proj2 (Nat.eqb_eq _ _) (Forall2_length _ _ _ H)).
    cbn [negb]. induction H as [|x y a b Hd _ IH]; [done|].
    cbn [lists_agree]. by rewrite Hd.
Qed.

(** X25. WindowListsEqual is an equivalence relation on window lists. *)
Theorem WindowListsEqual_equivalence :
  (forall a, WindowListsEqual a a = true)
  /\ (forall a b, WindowListsEqual a b = true -> WindowListsEqual b a = true)
  /\ (forall a b c,
        WindowListsEqual a b = true -> WindowListsEqual b c = true ->
        WindowListsEqual a c = true).
Proof.
  split_and!.
  - intros a. apply WindowListsEqual_Forall2, Forall_Forall2_diag, Forall_forall.
    intros x _. by apply entries_differ_false.
  - intros a b Hab%WindowListsEqual_Forall2. apply WindowListsEqual_Forall2.
    apply Forall2_flip. eapply Forall2_impl; [done|]. cbn.
    intros x y Hd%entries_differ_false. apply entries_differ_false.
    destruct Hd as (? & ? & ? & ? & ?). split_and!; done.
  - intros a b c Hab%WindowListsEqual_Forall2 Hbc%WindowListsEqual_Forall2.
    apply WindowListsEqual_Forall2.
    eapply Forall2_trans; [|done|done]. cbn.
    intros x y z Hxy%entries_differ_false Hyz%entries_differ_false.
    apply entries_differ_false.
    destruct Hxy as (? & ? & ? & ? & ?), Hyz as (? & ? & ? & ? & ?).
    split_and!; congruence.
Qed.

(** X26. A change of the foreground window alone is no difference to
    WindowListsEqual, although the entries' isFocused flags change with
    it: the timer then leaves m_prevWindowList as it was. *)
Theorem focus_change_is_no_difference sh fg :
  WindowListsEqual (WindowMonitor.EnumerateWindows (with_foreground sh fg))
    (WindowMonitor.EnumerateWindows sh) = true
  /\ update_prevWindowList
       (WindowMonitor.EnumerateWindows (with_foreground sh fg))
       (WindowMonitor.EnumerateWindows sh)
     = WindowMonitor.EnumerateWindows sh.
Proof.
  assert (H : WindowListsEqual
                (WindowMonitor.EnumerateWindows (with_foreground sh fg))
                (WindowMonitor.EnumerateWindows sh) = true).
  { apply WindowListsEqual_Forall2. unfold WindowMonitor.EnumerateWindows.
    cbn [with_foreground WindowMonitor.sh_os].
    induction (EnumWindows (WindowMonitor.sh_os sh)) as [|h hs IH];
      [constructor|].
    cbn [omap list_omap]. rewrite !EnumWindowsCallback_eq.
    cbn [with_foreground WindowMonitor.sh_os].
    destruct (visible_and_titled _ h); [|done].
    constructor; [|done]. by apply entries_differ_false. }
  split; [done|]. unfold update_prevWindowList. by rewrite H.
Qed.

Lemma join_comma_nonempty name names :
  name <> [] -> join_comma (name :: names) <> [].
Proof. destruct name, names; done. Qed.

Lemma join_comma_snoc names name :
  Forall (fun n => n <> []) names ->
  join_comma (names ++ [name])
  = (if negb (bool_decide (join_comma names = []))
     then join_comma names ++ L ", " else join_comma names) ++ name.
Proof.
  induction names as [|a names IH]; intros Hne; [done|].
  apply Forall_cons in Hne as [Ha Hne].
  rewrite (bool_decide_eq_false_2 (join_comma (a :: names) = []))
    by by apply join_comma_nonempty.
  cbn [negb]. destruct names as [|b names].
  - cbn. by rewrite <- !app_assoc.
  - change (join_comma ((a :: b :: names) ++ [name]))
      with (a ++ L ", " ++ join_comma ((b :: names) ++ [name])).
    rewrite (IH Hne).
    rewrite (bool_decide_eq_false_2 (join_comma (b :: names) = []))
      by (apply join_comma_nonempty; by apply Forall_cons in Hne as [? _]).
    cbn [negb].
    change (join_comma (a :: b :: names))
      with (a ++ L ", " ++ join_comma (b :: names)).
    by rewrite <- !app_assoc.
Qed.

Lemma row_matches_title_nonempty winTitleLower fileName :
  row_matches_title winTitleLower fileName = true -> fileName <> [].
Proof.
  unfold row_matches_title. intros [H _]%andb_true_iff ->.
  by apply negb_true_iff, bool_decide_eq_false in H.
Qed.

Lemma associated_files_from winTitleLower rows names :
  Forall (fun n => n <> []) names ->
  fold_left
    (fun associatedFiles fileName =>
       if row_matches_title winTitleLower fileName then
         (if negb (bool_decide (associatedFiles = []))
          then associatedFiles ++ L ", " else associatedFiles) ++ fileName
       else associatedFiles)
    rows (join_comma names)
  = join_comma (names ++ List.filter (row_matches_title winTitleLower) rows).
Proof.
  revert names. induction rows as [|row rows IH]; intros names Hne.
  - by rewrite app_nil_r.
  - cbn [fold_left List.filter].
    destruct (row_matches_title winTitleLower row) eqn:Hrow.
    + rewrite <- join_comma_snoc by done. rewrite IH.
      * by rewrite <- app_assoc.
      * apply Forall_app. split; [done|]. apply Forall_singleton.
        by eapply row_matches_title_nonempty.
    + by apply IH.
Qed.

(** X27. The Associated Files column of a monitored window holds, separated by
    ", " and in the order of the File Tracking list, exactly the rows whose
    name the window's title contains (both lower-cased, the name without
    a trailing ".lnk", and not empty); and that is the test by which the
    title search for the row accepts this window. *)
Theorem associated_files_are_title_matches :
  (forall rows title,
      associated_files rows title
      = join_comma (List.filter (row_matches_title (to_lower title)) rows))
  /\ (forall os h fileName,
        row_matches_title (to_lower (GetWindowText os h)) fileName = true
        <-> EnumProcFile os fileName h = Some h).
Proof.
  split.
  - intros rows title. unfold associated_files.
    apply (associated_files_from _ rows []). constructor.
  - intros os h fileName. rewrite EnumProcFile_Some. unfold row_matches_title.
    rewrite andb_true_iff, negb_true_iff, bool_decide_eq_false,
      bool_decide_eq_true, find_contains.
    split; [intros [? ?] | intros (_ & ? & ?)]; done.
Qed.

End window_monitoring.

(** ** MainWindow.cpp: the launcher buttons *)

Section launcher_buttons.

Lemma launcher_entries_Permutation (m : gmap wstring bool) :
  launcher_entries m ≡ₚ map_to_list m.
Proof. unfold launcher_entries. apply merge_sort_Permutation. Qed.

Lemma launcher_entries_NoDup (m : gmap wstring bool) :
  NoDup (launcher_entries m).*1.
Proof.
  rewrite launcher_entries_Permutation. apply NoDup_fst_map_to_list.
Qed.

Lemma checked_paths_elem es path :
  path ∈ checked_paths es <-> (path, true) ∈ es.
Proof.
  unfold checked_paths. rewrite list_elem_of_fmap. split.
  - intros ([p c] & -> & Hin). apply list_elem_of_In, filter_In in Hin.
    destruct Hin as [Hin Hc]. simpl in Hc. subst c. by apply list_elem_of_In.
  - intros Hin. exists (path, true). split; [done|].
    apply list_elem_of_In, filter_In. split; [by apply list_elem_of_In|done].
Qed.

Lemma checked_paths_launcher_entries (m : gmap wstring bool) path :
  path ∈ checked_paths (launcher_entries m) <-> m !! path = Some true.
Proof.
  rewrite checked_paths_elem, launcher_entries_Permutation.
  apply elem_of_map_to_list.
Qed.

Lemma checked_paths_cons p c es :
  checked_paths ((p, c) :: es)
  = if c then p :: checked_paths es else checked_paths es.
Proof. by destruct c. Qed.

Lemma checked_paths_subseteq es : checked_paths es ⊆ es.*1.
Proof.
  intros p Hp%checked_paths_elem. apply list_elem_of_fmap. by exists (p, true).
Qed.

Lemma refresh_loop_checked CreateWindowEx p es k acc :
  (k < MAX_LAUNCHER_BUTTONS)%Z ->
  refresh_loop CreateWindowEx ((p, true) :: es) k acc
  = refresh_loop CreateWindowEx es (k + 1)
      match CreateWindowEx (launcher_button p k) with
      | Some hButton =>
          {| m_fileButtons := <[p := hButton]> (m_fileButtons acc);
             m_launcherButtonMap :=
               <[(ID_LAUNCHER_BUTTON_BASE + k)%Z := p]> (m_launcherButtonMap acc);
             requested := requested acc ++ [launcher_button p k] |}
      | None =>
          {| m_fileButtons := m_fileButtons acc;
             m_launcherButtonMap := m_launcherButtonMap acc;
             requested := requested acc ++ [launcher_button p k] |}
      end.
Proof.
  intros Hk. cbn [refresh_loop].
  by rewrite (proj2 (Z.leb_gt _ _) Hk).
Qed.

Lemma refresh_loop_full CreateWindowEx p es k acc :
  (MAX_LAUNCHER_BUTTONS <= k)%Z ->
  refresh_loop CreateWindowEx ((p, true) :: es) k acc = acc.
Proof.
  intros Hk. cbn [refresh_loop]. by rewrite (proj2 (Z.leb_le _ _) Hk).
Qed.

Lemma room_step k :
  (0 <= k < MAX_LAUNCHER_BUTTONS)%Z ->
  Z.to_nat (MAX_LAUNCHER_BUTTONS - k)
  = S (Z.to_nat (MAX_LAUNCHER_BUTTONS - (k + 1))).
Proof. unfold MAX_LAUNCHER_BUTTONS. lia. Qed.

Lemma room_none k :
  (MAX_LAUNCHER_BUTTONS <= k)%Z -> Z.to_nat (MAX_LAUNCHER_BUTTONS - k) = 0%nat.
Proof. unfold MAX_LAUNCHER_BUTTONS. lia. Qed.

Lemma refresh_loop_requested CreateWindowEx es k acc :
  (0 <= k)%Z ->
  requested (refresh_loop CreateWindowEx es k acc)
  = requested acc
    ++ imap (fun i p => launcher_button p (k + Z.of_nat i))
         (take (Z.to_nat (MAX_LAUNCHER_BUTTONS - k)) (checked_paths es)).
Proof.
  revert k acc. induction es as [|[p c] es IH]; intros k acc Hk.
  - cbn. by rewrite take_nil, app_nil_r.
  - rewrite checked_paths_cons. destruct c.
    + destruct (Z.lt_ge_cases k MAX_LAUNCHER_BUTTONS) as [Hlt|Hge].
      * rewrite refresh_loop_checked, room_step by lia.
        rewrite IH by lia. cbn [take imap].
        rewrite Z.add_0_r.
        replace (requested _) with (requested acc ++ [launcher_button p k])
          by by destruct (CreateWindowEx _).
        rewrite <- app_assoc. cbn [app]. do 2 f_equal.
        apply imap_ext. intros i x _. cbn. f_equal. lia.
      * rewrite refresh_loop_full, room_none by done.
        by rewrite app_nil_r.
    + cbn [refresh_loop]. by apply IH.
Qed.

Lemma refresh_loop_buttonMap CreateWindowEx es k acc id path :
  (0 <= k)%Z ->
  (forall id', is_Some (m_launcherButtonMap acc !! id') ->
               (id' < ID_LAUNCHER_BUTTON_BASE + k)%Z) ->
  m_launcherButtonMap (refresh_loop CreateWindowEx es k acc) !! id = Some path
  <-> m_launcherButtonMap acc !! id = Some path
      \/ exists i,
           take (Z.to_nat (MAX_LAUNCHER_BUTTONS - k)) (checked_paths es) !! i
           = Some path
           /\ id = (ID_LAUNCHER_BUTTON_BASE + k + Z.of_nat i)%Z
           /\ is_Some (CreateWindowEx (launcher_button path (k + Z.of_nat i))).
Proof.
  revert k acc. induction es as [|[p c] es IH]; intros k acc Hk Hacc.
  - cbn. rewrite take_nil. split; [by left|].
    intros [H|(i & Hi & _)]; [done|]. by rewrite lookup_nil in Hi.
  - rewrite checked_paths_cons. destruct c; [|cbn [refresh_loop]; by apply IH].
    destruct (Z.lt_ge_cases k MAX_LAUNCHER_BUTTONS) as [Hlt|Hge].
    + rewrite refresh_loop_checked, room_step by lia. cbn [take].
      rewrite IH; [|lia|].
      * split.
        -- intros [Hacc'|(i & Hi & -> & HC)].
           ++ destruct (CreateWindowEx (launcher_button p k)) as [hb|] eqn:HC;
                cbn in Hacc'; [|by left].
              apply lookup_insert_Some in Hacc' as [[<- <-]|[_ Hold]];
                [|by left].
              right. exists 0%nat. rewrite !Z.add_0_r, HC. by eauto.
           ++ right. exists (S i). split; [done|].
              replace (k + Z.of_nat (S i))%Z with (k + 1 + Z.of_nat i)%Z by lia.
              split; [lia|done].
        -- intros [Hold|(i & Hi & -> & HC)].
           ++ left. destruct (CreateWindowEx (launcher_button p k)); [|done].
              cbn. rewrite lookup_insert_ne; [done|].
              intros <-. specialize (Hacc _ (mk_is_Some _ _ Hold)). lia.
           ++ destruct i as [|i].
              ** left. cbn in Hi. injection Hi as ->.
                 rewrite !Z.add_0_r in *. destruct HC as [hb HC]. rewrite HC.
                 cbn. by rewrite lookup_insert_eq.
              ** right. exists i. split; [done|].
                 replace (k + 1 + Z.of_nat i)%Z with (k + Z.of_nat (S i))%Z
                   by lia.
                 split; [lia|done].
      * intros id' Hid'.
        destruct (CreateWindowEx (launcher_button p k)); cbn in Hid'.
        -- destruct (decide (id' = (ID_LAUNCHER_BUTTON_BASE + k)%Z)) as [->|Hne];
             [lia|].
           rewrite lookup_insert_ne in Hid' by done.
           specialize (Hacc _ Hid'). lia.
        -- specialize (Hacc _ Hid'). lia.
    + rewrite refresh_loop_full, room_none by done. cbn [take].
      split; [by left|]. intros [H|(i & Hi & _)]; [done|].
      by rewrite lookup_nil in Hi.
Qed.

Lemma refresh_loop_fileButtons CreateWindowEx es k acc path h :
  (0 <= k)%Z -> NoDup es.*1 ->
  (forall p, p ∈ es.*1 -> m_fileButtons acc !! p = None) ->
  m_fileButtons (refresh_loop CreateWindowEx es k acc) !! path = Some h
  <-> m_fileButtons acc !! path = Some h
      \/ exists i,
           take (Z.to_nat (MAX_LAUNCHER_BUTTONS - k)) (checked_paths es) !! i
           = Some path
           /\ CreateWindowEx (launcher_button path (k + Z.of_nat i)) = Some h.
Proof.
  revert k acc. induction es as [|[p c] es IH]; intros k acc Hk Hnd Hacc.
  - cbn. rewrite take_nil. split; [by left|].
    intros [H|(i & Hi & _)]; [done|]. by rewrite lookup_nil in Hi.
  - rewrite fmap_cons in Hnd. apply NoDup_cons in Hnd as [Hp Hnd].
    assert (Hrest : forall p', p' ∈ es.*1 -> m_fileButtons acc !! p' = None).
    { intros p' Hin. apply Hacc. rewrite fmap_cons. by apply list_elem_of_further. }
    rewrite checked_paths_cons.
    destruct c; [|cbn [refresh_loop]; by apply IH].
    destruct (Z.lt_ge_cases k MAX_LAUNCHER_BUTTONS) as [Hlt|Hge].
    + rewrite refresh_loop_checked, room_step by lia. cbn [take].
      rewrite IH; [|lia|done|].
      * split.
        -- intros [Hacc'|(i & Hi & HC)].
           ++ destruct (CreateWindowEx (launcher_button p k)) as [hb|] eqn:HC;
                cbn in Hacc'; [|by left].
              apply lookup_insert_Some in Hacc' as [[<- <-]|[_ Hold]];
                [|by left].
              right. exists 0%nat. by rewrite !Z.add_0_r.
           ++ right. exists (S i). split; [done|].
              by replace (k + Z.of_nat (S i))%Z with (k + 1 + Z.of_nat i)%Z
                by lia.
        -- intros [Hold|(i & Hi & HC)].
           ++ left. destruct (CreateWindowEx (launcher_button p k)); [|done].
              cbn. rewrite lookup_insert_ne; [done|].
              intros <-. rewrite Hacc in Hold; [done|].
              rewrite fmap_cons. apply list_elem_of_here.
           ++ destruct i as [|i].
              ** left. cbn in Hi. injection Hi as ->.
                 rewrite !Z.add_0_r in HC. rewrite HC.
                 cbn. by rewrite lookup_insert_eq.
              ** right. exists i. split; [done|].
                 by replace (k + 1 + Z.of_nat i)%Z with (k + Z.of_nat (S i))%Z
                   by lia.
      * intros p' Hin.
        destruct (CreateWindowEx (launcher_button p k)); cbn; [|by apply Hrest].
        rewrite lookup_insert_ne; [by apply Hrest|]. by intros <-.
    + rewrite refresh_loop_full, room_none by done. cbn [take].
      split; [by left|]. intros [H|(i & Hi & _)]; [done|].
      by rewrite lookup_nil in Hi.
Qed.

Lemma RefreshLauncherButtons_requested CreateWindowEx m :
  requested (RefreshLauncherButtons CreateWindowEx m)
  = imap (fun i p => launcher_button p (Z.of_nat i))
      (take 5 (checked_paths (launcher_entries m))).
Proof.
  unfold RefreshLauncherButtons. rewrite refresh_loop_requested by lia.
  done.
Qed.

Lemma RefreshLauncherButtons_requested_lookup CreateWindowEx m i spec :
  requested (RefreshLauncherButtons CreateWindowEx m) !! i = Some spec
  <-> (i < 5)%nat
      /\ exists path,
           checked_paths (launcher_entries m) !! i = Some path
           /\ spec = launcher_button path (Z.of_nat i).
Proof.
  rewrite RefreshLauncherButtons_requested, list_lookup_imap.
  destruct (decide (i < 5)%nat) as [Hi|Hi].
  - rewrite lookup_take_lt by done.
    destruct (checked_paths _ !! i) as [p|]; cbn.
    + split; [intros [= <-]; eauto | intros (_ & path & [= <-] & ->); done].
    + split; [done | intros (_ & path & ? & _); done].
  - rewrite lookup_take_ge by lia. cbn.
    split; [done | intros (? & _); done].
Qed.

Lemma launcher_target_RefreshLauncherButtons CreateWindowEx m wmId filePath :
  launcher_target (RefreshLauncherButtons CreateWindowEx m) wmId = Some filePath
  <-> exists i,
        (i < 5)%nat
        /\ checked_paths (launcher_entries m) !! i = Some filePath
        /\ wmId = (ID_LAUNCHER_BUTTON_BASE + Z.of_nat i)%Z
        /\ is_Some (CreateWindowEx (launcher_button filePath (Z.of_nat i))).
Proof.
  unfold launcher_target, RefreshLauncherButtons.
  assert (Hmap :
    m_launcherButtonMap
      (refresh_loop CreateWindowEx (launcher_entries m) 0
         {| m_fileButtons := ∅; m_launcherButtonMap := ∅; requested := [] |})
      !! wmId = Some filePath
    <-> exists i,
        (i < 5)%nat
        /\ checked_paths (launcher_entries m) !! i = Some filePath
        /\ wmId = (ID_LAUNCHER_BUTTON_BASE + Z.of_nat i)%Z
        /\ is_Some (CreateWindowEx (launcher_button filePath (Z.of_nat i)))).
  { rewrite refresh_loop_buttonMap; [|lia|].
    - change (Z.to_nat (MAX_LAUNCHER_BUTTONS - 0)) with 5%nat.
      cbn [m_launcherButtonMap]. split.
      + intros [H|(i & Hi & -> & HC)]; [by rewrite lookup_empty in H|].
        apply lookup_take_Some in Hi as [Hi Hlt]. rewrite Z.add_0_l in HC.
        exists i. split_and!; [done|done|lia|done].
      + intros (i & Hlt & Hi & -> & HC). right. exists i.
        rewrite Z.add_0_l. split_and!; [|lia|done].
        by rewrite lookup_take_lt.
    - cbn [m_launcherButtonMap]. intros id' [? H].
      by rewrite lookup_empty in H. }
  destruct (is_launcher_command wmId) eqn:Hcmd; [done|].
  split; [done|]. intros (i & Hlt & _ & -> & _).
  unfold is_launcher_command, ID_LAUNCHER_BUTTON_BASE, MAX_LAUNCHER_BUTTONS in Hcmd.
  apply andb_false_iff in Hcmd as [Hc|Hc];
    [apply Z.leb_gt in Hc | apply Z.ltb_ge in Hc]; lia.
Qed.

(** X28. RefreshLauncherButtons asks for one button per checked file, in the
    order of the paths, for the first five of them at most. Button number
    i carries the id 3000 + i, which the WM_COMMAND test takes for a
    launcher button, stands at x = 10 + 130 i in the button row, and is
    labelled with the file name of its path; two buttons never overlap. *)
Theorem RefreshLauncherButtons_layout CreateWindowEx m :
  let ls := RefreshLauncherButtons CreateWindowEx m in
  length (requested ls)
  = (length (checked_paths (launcher_entries m)) `min` 5)%nat
  /\ (forall i spec,
        requested ls !! i = Some spec ->
        ctrlId spec = (ID_LAUNCHER_BUTTON_BASE + Z.of_nat i)%Z
        /\ is_launcher_command (ctrlId spec) = true
        /\ xPos spec = (10 + 130 * Z.of_nat i)%Z
        /\ yPos spec = BUTTON_ROW_Y
        /\ exists path,
             checked_paths (launcher_entries m) !! i = Some path
             /\ m !! path = Some true
             /\ buttonLabel spec = button_label path)
  /\ (forall i j si sj,
        (i < j)%nat ->
        requested ls !! i = Some si -> requested ls !! j = Some sj ->
        (xPos si + nWidth si + BUTTON_X_GAP <= xPos sj)%Z).
Proof.
  cbv zeta. split_and!.
  - rewrite RefreshLauncherButtons_requested, length_imap, length_take. lia.
  - intros i spec (Hi & path & Hpath & ->)%RefreshLauncherButtons_requested_lookup.
    cbn. split_and!; try done.
    + unfold is_launcher_command, ID_LAUNCHER_BUTTON_BASE, MAX_LAUNCHER_BUTTONS.
      apply andb_true_iff. split; [apply Z.leb_le | apply Z.ltb_lt]; lia.
    + unfold BUTTON_X_START, BUTTON_WIDTH, BUTTON_X_GAP. lia.
    + exists path. split_and!; [done| |done].
      apply checked_paths_launcher_entries. by eapply list_elem_of_lookup_2.
  - intros i j si sj Hij
      (_ & pi & _ & ->)%RefreshLauncherButtons_requested_lookup
      (_ & pj & _ & ->)%RefreshLauncherButtons_requested_lookup.
    cbn. unfold BUTTON_X_START, BUTTON_WIDTH, BUTTON_X_GAP. nia.
Qed.

(** X29. A WM_COMMAND id stands for a file exactly when it is the id of a
    button that RefreshLauncherButtons asked for that file and that
    CreateWindowEx made; the file is then a checked one, the button is
    labelled with its name, and m_fileButtons holds the button's handle
    for it. *)
Theorem launcher_button_opens_its_file CreateWindowEx m wmId filePath :
  let ls := RefreshLauncherButtons CreateWindowEx m in
  launcher_target ls wmId = Some filePath
  <-> exists i hButton,
        checked_paths (launcher_entries m) !! i = Some filePath
        /\ requested ls !! i = Some (launcher_button filePath (Z.of_nat i))
        /\ wmId = ctrlId (launcher_button filePath (Z.of_nat i))
        /\ CreateWindowEx (launcher_button filePath (Z.of_nat i)) = Some hButton
        /\ m !! filePath = Some true
        /\ m_fileButtons ls !! filePath = Some hButton.
Proof.
  cbv zeta. rewrite launcher_target_RefreshLauncherButtons. split.
  - intros (i & Hi & Hpath & -> & [hButton HC]). exists i, hButton.
    split_and!; try done.
    + apply RefreshLauncherButtons_requested_lookup. eauto.
    + apply checked_paths_launcher_entries. by eapply list_elem_of_lookup_2.
    + unfold RefreshLauncherButtons.
      apply refresh_loop_fileButtons;
        [lia|apply launcher_entries_NoDup|done|].
      right. exists i. split; [|by rewrite Z.add_0_l].
      change (Z.to_nat (MAX_LAUNCHER_BUTTONS - 0)) with 5%nat.
      by rewrite lookup_take_lt.
  - intros (i & hButton & Hpath & Hreq & -> & HC & _ & _).
    apply RefreshLauncherButtons_requested_lookup in Hreq as (Hi & _).
    exists i. split_and!; [done|done|done|by eexists].
Qed.

(** X30. Unchecking a row of the File Tracking list (LVN_ITEMCHANGED) leaves
    its file without a launcher button: no command id stands for the
    file, m_fileButtons has no handle for it, and every file a command id
    still stands for was checked before. *)
Theorem unchecked_file_loses_its_button CreateWindowEx m fileName :
  let ls := (OnItemChanged CreateWindowEx m fileName false).2 in
  (forall wmId, launcher_target ls wmId <> Some (row_path fileName))
  /\ m_fileButtons ls !! row_path fileName = None
  /\ (forall wmId filePath,
        launcher_target ls wmId = Some filePath -> m !! filePath = Some true).
Proof.
  cbv zeta. unfold OnItemChanged. cbn [snd].
  set (m' := <[row_path fileName := false]> m).
  assert (Hchecked : forall i filePath,
            checked_paths (launcher_entries m') !! i = Some filePath ->
            filePath <> row_path fileName /\ m !! filePath = Some true).
  { intros i filePath Hi. apply list_elem_of_lookup_2 in Hi.
    apply checked_paths_launcher_entries in Hi. unfold m' in Hi.
    apply lookup_insert_Some in Hi as [[_ ?]|[? ?]]; done. }
  split_and!.
  - intros wmId (i & _ & Hi & _)%launcher_target_RefreshLauncherButtons.
    by apply Hchecked in Hi as [? _].
  - apply eq_None_not_Some. intros [h Hh]. unfold RefreshLauncherButtons in Hh.
    apply refresh_loop_fileButtons in Hh;
      [|lia|apply launcher_entries_NoDup|done].
    destruct Hh as [Hh|(i & Hi & _)];
      [cbn [m_fileButtons] in Hh; by rewrite lookup_empty in Hh|].
    apply lookup_take_Some in Hi as [Hi _].
    by apply Hchecked in Hi as [? _].
  - intros wmId filePath (i & _ & Hi & _)%launcher_target_RefreshLauncherButtons.
    by apply Hchecked in Hi as [_ ?].
Qed.

End launcher_buttons.

(** ** The properties on scenarios *)

Section more_scenarios.

(** The Word window is found under the name written as in its title. *)
Lemma IsFileWindowOpen_found_by_title_search_witness :
  IsFileWindowOpen word_os (L "Document1") = true
  /\ StripLnkExtension (to_lower (L "Document1")) <> []
  /\ is_Some (GetWindowHandleByFileName word_os (L "Document1")).
Proof.
  assert (IsFileWindowOpen word_os (L "Document1") = true) as Hopen
    by reflexivity.
  assert (StripLnkExtension (to_lower (L "Document1")) <> []) as Hkey
    by (by vm_compute).
  split_and!; [exact Hopen | exact Hkey |].
  exact (IsFileWindowOpen_found_by_title_search word_os (L "Document1")
           Hopen Hkey).
Defined.

(** A window arriving at 751 ms and one arriving at 999 ms are the same
    to LaunchFile. *)
Lemma LaunchFile_looks_four_times_witness :
  LaunchFile (late_world 751) (row_path doc_name) ∅
  = LaunchFile (late_world 999) (row_path doc_name) ∅.
Proof.
  apply (LaunchFile_looks_four_times (late_world 751) (late_world 999)).
  - reflexivity.
  - intros t Ht. set_unfold.
    destruct Ht as [->|[->|[->|[->|[]]]]]; reflexivity.
Defined.



(** The record stored by a launch is the fingerprint of the window it
    names. *)
Lemma stored_record_is_capture_witness :
  reachable (LaunchFile (late_world 0) (row_path doc_name) ∅).1
  /\ (exists os,
         GetFingerprint word_os 17%positive
         = GetFingerprint os (hwnd (GetFingerprint word_os 17%positive)))
  /\ (length (className (GetFingerprint word_os 17%positive)) <= 255)%nat.
Proof.
  assert (reachable (LaunchFile (late_world 0) (row_path doc_name) ∅).1)
    as Hreach.
  { eapply reachable_step; [apply reachable_start | apply step_launch]. }
  split; [exact Hreach|].
  apply (stored_record_is_capture _ Hreach (row_path doc_name)).
  by vm_compute.
Defined.


(** A double click on the row of Site.URL shows its URL in the browser
    panel and leaves the store alone; when the file cannot be opened the
    error is shown. *)
Lemma url_row_bypasses_tracking_witness :
  OnRowDoubleClick site_files word_os no_launch_world site_row doc_store
  = (ShowedBrowser (L "https://example.org/"), doc_store, [])
  /\ OnRowDoubleClick no_files word_os no_launch_world site_row doc_store
     = (ShowedError (MessageBox (L "Failed to open .url file.") (L "Error")),
        doc_store, []).
Proof.
  assert (site_row <> []) as Hrow by done.
  assert (to_lower (row_path (trim_row site_row))
          = to_lower (row_path (L "Site")) ++ L ".url") as Hurl
    by reflexivity.
  split.
  - apply (proj2 (url_row_bypasses_tracking site_files word_os no_launch_world
                    site_row doc_store _ Hrow Hurl)
             site_text [L "[InternetShortcut]"] (L "https://example.org/") []).
    + reflexivity.
    + reflexivity.
    + intros l ->%list_elem_of_singleton r Hr. discriminate Hr.
    + done.
  - apply (proj1 (url_row_bypasses_tracking no_files word_os no_launch_world
                    site_row doc_store _ Hrow Hurl)).
    reflexivity.
Defined.


End more_scenarios.
